(** * MacOS-Collector: the forensic sparsebundle creator

    A shallow embedding of [MacOS_Collector.py] and the properties of its
    evidence pipeline: container sizing, metadata-preserving copy with
    per-file hashing, the verification report and the exit status of
    [main].

    Conventions.
    - Python [int] is [Z] (sizes read from the file system are [N]).
    - Python [float] is IEEE binary64.  Only non-negative finite values
      occur in [estimate_size_needed]; they are kept as a mantissa and a
      binary exponent, and every operation rounds to 53 bits, to nearest,
      ties to even.
    - The operating system is a record of answers ([World]); the effects
      of a run are the list of external actions it performs, in order.
      The dialogs are taken to open and return; what the operator answers
      is part of the [World].  Logging is left out.
    - A Python exception is the [Raise] outcome of the small monad [M]. *)

From Stdlib Require Import ZArith NArith List String Ascii Bool Lia.
From Stdlib Require Import DecimalString SpecFloat.
Import ListNotations.
Set Warnings "-register-all".
Open Scope string_scope.
Open Scope Z_scope.

(** ** Python exceptions *)

Inductive exn : Type :=
| OverflowError
| TypeError
| ValueError
| OSError
| CalledProcessError.

Inductive outcome (A : Type) : Type :=
| Ret (a : A)
| Raise (e : exn).
Arguments Ret {A} a.
Arguments Raise {A} e.

(** ** Binary64 arithmetic, as far as [estimate_size_needed] uses it *)

Module Float.

(** The value of [{| mant := m; expo := e |}] is [m * 2^e], [0 <= m]. *)
Record t : Type := mk { mant : Z; expo : Z }.

(** Number of bits of the mantissa in excess of the 53 a double keeps. *)
Definition excess (m : Z) : Z := Z.log2 m + 1 - 53.

(** Round [m * 2^e] to 53 significant bits, to nearest, ties to even. *)
Definition round53 (m e : Z) : t :=
  let s := excess m in
  if s <=? 0 then mk m e
  else
    let q := Z.shiftr m s in
    let r := Z.land m (Z.ones s) in
    let half := 2 ^ (s - 1) in
    let up := (half <? r) || ((r =? half) && Z.odd q) in
    mk (if up then q + 1 else q) (e + s).

(** [m * 2^e] is at least [2^1024]: not a finite double. *)
Definition overflows (x : t) : bool :=
  (0 <? mant x) && (1024 <? Z.log2 (mant x) + 1 + expo x).

(** [a / (1024 * 1024)] on Python ints: true division is correctly
    rounded, and dividing by [2^20] only moves the exponent.  The
    division raises [OverflowError] when the quotient is too large. *)
Definition truediv_mib (a : Z) : outcome t :=
  let x := round53 a (-20) in
  if overflows x then Raise OverflowError else Ret x.

(** The literal [1.1]: the double [0x1.199999999999ap+0]. *)
Definition one_point_one : t := mk 4953959590107546 (-52).

(** [x * y]; [None] stands for the infinity an overflow produces. *)
Definition mul (x y : t) : option t :=
  let p := round53 (mant x * mant y) (expo x + expo y) in
  if overflows p then None else Some p.

(** [int(x)]: truncation; [int(inf)] raises [OverflowError]. *)
Definition to_int (x : option t) : outcome Z :=
  match x with
  | None => Raise OverflowError
  | Some x =>
      Ret (if 0 <=? expo x then mant x * 2 ^ expo x
           else Z.shiftr (mant x) (- expo x))
  end.

End Float.

(** ** The file system as [estimate_size_needed] reads it *)

(** What a path denotes once symbolic links are followed, as [os.stat]
    and the tests of [os.path] see it: [Absent] is a missing path or a
    dangling link, [Special] a device, socket or FIFO ([os.path.exists]
    holds, [isfile] and [isdir] do not).  The entries of a directory are
    what [os.scandir] lists: an entry is there itself ([Plain]) or is a
    symbolic link ([Link]), given with what the link resolves to. *)
Inductive node : Type :=
| File (size : N)
| Dir (entries : list dirent)
| Special (size : N)
| Absent
with dirent : Type :=
| Plain (n : node)
| Link (target : node).

(** A symbolic link met by [os.walk].  One that resolves to a directory
    is listed in [dirnames] and, [followlinks] being left at [False],
    not walked into: nothing behind it is counted.  Any other link is
    listed in [filenames], where [os.path.exists] and [os.path.getsize]
    follow it. *)
Definition linked_size (target : node) : N :=
  match target with
  | File s | Special s => s
  | Dir _ | Absent => 0
  end%N.

(** The body of [for dirpath, dirnames, filenames in os.walk(path)]:
    every non-directory entry [fp] with [os.path.exists(fp)] adds
    [os.path.getsize(fp)]; the sub-directories that are no links are
    walked in turn. *)
Fixpoint walk_size (n : node) : N :=
  match n with
  | File s => s
  | Special s => s
  | Absent => 0
  | Dir es =>
      (fix over (l : list dirent) : N :=
         match l with
         | [] => 0
         | Plain e :: l' => walk_size e + over l'
         | Link t :: l' => linked_size t + over l'
         end) es
  end%N.

(** One iteration of [for path in paths]. *)
Definition path_size (n : node) : N :=
  match n with
  | File s => s
  | Dir _ => walk_size n
  | Special _ | Absent => 0
  end%N.

Definition total_size (fs : string -> node) (paths : list string) : N :=
  fold_left (fun acc p => (acc + path_size (fs p))%N) paths 0%N.

(** [int((total / (1024 * 1024)) * 1.1)] *)
Definition float_size_mb (total : Z) : outcome Z :=
  match Float.truediv_mib total with
  | Raise e => Raise e
  | Ret x => Float.to_int (Float.mul x Float.one_point_one)
  end.

(** [estimate_size_needed]: the sizes are summed, converted with a 10%
    buffer, and [max(size_mb, 100)] is returned. *)
Definition estimate_size_needed (fs : string -> node) (paths : list string)
  : outcome Z :=
  match float_size_mb (Z.of_N (total_size fs paths)) with
  | Raise e => Raise e
  | Ret size_mb => Ret (Z.max size_mb 100)
  end.

(** The bytes of the regular files reachable under a path without going
    through a symbolic link to a directory met inside a selected
    directory (a link to a regular file counts as that file), and under
    a selection. *)
Fixpoint regular_bytes (n : node) : N :=
  match n with
  | File s => s
  | Special _ | Absent => 0
  | Dir es =>
      (fix over (l : list dirent) : N :=
         match l with
         | [] => 0
         | Plain e :: l' => regular_bytes e + over l'
         | Link (File s) :: l' => s + over l'
         | Link _ :: l' => over l'
         end) es
  end%N.

Definition total_bytes (fs : string -> node) (paths : list string) : N :=
  fold_right (fun p acc => (regular_bytes (fs p) + acc)%N) 0%N paths.

(** The same with every symbolic link followed. *)
Fixpoint followed_bytes (n : node) : N :=
  match n with
  | File s => s
  | Special _ | Absent => 0
  | Dir es =>
      (fix over (l : list dirent) : N :=
         match l with
         | [] => 0
         | Plain e :: l' => followed_bytes e + over l'
         | Link t :: l' => followed_bytes t + over l'
         end) es
  end%N.

Definition total_followed_bytes (fs : string -> node) (paths : list string)
  : N :=
  fold_right (fun p acc => (followed_bytes (fs p) + acc)%N) 0%N paths.

(** [ceil(1.1 * b / 1 MiB)] and [floor(1.1 * b / 1 MiB)], exactly. *)
Definition ceil_mb (b : N) : Z := (11 * Z.of_N b + 10485759) / 10485760.
Definition floor_mb (b : N) : Z := (11 * Z.of_N b) / 10485760.

(** The same computation on the Standard Library's specification of IEEE
    754 ([prec = 53], [emax = 1024]); the arithmetic above is checked
    against it on sample values. *)
Definition ieee_size_mb (total : Z) : spec_float :=
  SFmul 53 1024
    (SFdiv 53 1024
       (binary_normalize 53 1024 total 0 false)
       (binary_normalize 53 1024 (1024 * 1024) 0 false))
    (S754_finite false 4953959590107546 (-52)).

Definition ieee_to_int (x : spec_float) : outcome Z :=
  match x with
  | S754_zero _ => Ret 0
  | S754_finite false m e =>
      Ret (if 0 <=? e then Zpos m * 2 ^ e else Z.shiftr (Zpos m) (- e))
  | S754_finite true m e =>
      Ret (- (if 0 <=? e then Zpos m * 2 ^ e else Z.shiftr (Zpos m) (- e)))
  | S754_infinity _ | S754_nan => Raise OverflowError
  end.

(** ** Strings and paths *)

Definition nl : string := String "010"%char EmptyString.

Definition starts_with_slash (p : string) : bool :=
  match p with
  | String c _ => Ascii.eqb c "/"%char
  | EmptyString => false
  end.

Fixpoint ends_with_slash (p : string) : bool :=
  match p with
  | EmptyString => false
  | String c EmptyString => Ascii.eqb c "/"%char
  | String _ r => ends_with_slash r
  end.

(** [os.path.join(a, b)] (posix): an absolute [b] replaces [a]. *)
Definition join (a b : string) : string :=
  if starts_with_slash b then b
  else if String.eqb a "" || ends_with_slash a then a ++ b
  else a ++ "/" ++ b.

(** [os.path.basename(p)]: what follows the last slash. *)
Fixpoint basename_from (acc p : string) : string :=
  match p with
  | EmptyString => acc
  | String c r =>
      if Ascii.eqb c "/"%char then basename_from "" r
      else basename_from (acc ++ String c EmptyString) r
  end.

Definition basename (p : string) : string := basename_from "" p.

Definition is_space (c : ascii) : bool :=
  let n := nat_of_ascii c in
  (Nat.eqb n 32 || (Nat.leb 9 n && Nat.leb n 13)
   || (Nat.leb 28 n && Nat.leb n 31))%bool.

Fixpoint lstrip (s : string) : string :=
  match s with
  | String c r => if is_space c then lstrip r else s
  | EmptyString => EmptyString
  end.

Fixpoint rstrip (s : string) : string :=
  match s with
  | EmptyString => EmptyString
  | String c r =>
      match rstrip r with
      | EmptyString => if is_space c then EmptyString else String c EmptyString
      | r' => String c r'
      end
  end.

(** [s.strip()] *)
Definition strip (s : string) : string := rstrip (lstrip s).

(** [f"{n}"] for an int *)
Definition str_int (n : Z) : string := NilZero.string_of_int (Z.to_int n).

(** [f"{b}"] for a bool *)
Definition str_bool (b : bool) : string := if b then "True" else "False".

(** [f"{h}"] for a digest, which is a string or [None] *)
Definition str_digest (h : option string) : string :=
  match h with
  | Some s => s
  | None => "None"
  end.

(** [a == b] on digests *)
Definition digest_eqb (a b : option string) : bool :=
  match a, b with
  | Some x, Some y => String.eqb x y
  | None, None => true
  | _, _ => false
  end.

(** ** The audit data *)

(** One entry of [hash_log], the dict built in [copy_with_metadata]. *)
Record hash_entry : Type := {
  source_path : string;
  destination_path : string;
  sha256_source : option string;
  sha256_destination : option string;
  timestamp : string
}.

Record system_info : Type := {
  user : string;
  hostname : string;
  macos_version : string
}.

(** The dict [report_data] of [create_verification_report]. *)
Record report_data : Type := {
  report_timestamp : string;
  sparsebundle_path : string;
  tool_version : string;
  report_system_info : system_info;
  file_hashes : list hash_entry
}.

(** What a written file holds: the structured report, or the chunks
    given to [f.write], in order. *)
Inductive content : Type :=
| Plist (r : report_data)
| Text (chunks : list string).

(** A character an XML plist refuses in a string. *)
Definition is_control (c : ascii) : bool :=
  let n := nat_of_ascii c in
  (Nat.ltb n 32 && negb (Nat.eqb n 9) && negb (Nat.eqb n 10)
   && negb (Nat.eqb n 13))%bool.

Fixpoint plist_string (s : string) : bool :=
  match s with
  | EmptyString => true
  | String c r => negb (is_control c) && plist_string r
  end.

Definition digests_present (e : hash_entry) : bool :=
  match sha256_source e, sha256_destination e with
  | Some _, Some _ => true
  | _, _ => false
  end.

Definition all_digests_present (hash_log : list hash_entry) : bool :=
  forallb digests_present hash_log.

Definition entry_strings (e : hash_entry) : list string :=
  [source_path e; destination_path e;
   str_digest (sha256_source e); str_digest (sha256_destination e);
   timestamp e].

(** Every string of the report. *)
Definition report_strings (r : report_data) : list string :=
  ([report_timestamp r; sparsebundle_path r; tool_version r;
    user (report_system_info r); hostname (report_system_info r);
    macos_version (report_system_info r)]
   ++ flat_map entry_strings (file_hashes r))%list.

(** ** The environment and the effects *)

(** The answers the operating system and the operator give to a run.  An
    answer depends on the question only: the same query gets the same
    answer throughout the run. *)
Record World : Type := {
  platform : string;                                 (* sys.platform *)
  log_file : string;                                 (* module global *)
  check_output : list string -> outcome string;      (* subprocess.check_output *)
  chosen_files : list string;                        (* askopenfilenames *)
  folder_answers : list string;                      (* askdirectory, in turn *)
  destination_answer : string;                       (* askdirectory *)
  fs : string -> node;                               (* isfile, isdir, exists, getsize *)
  popen : list string -> outcome (Z * string * string);
                                 (* Popen + communicate: returncode, stdout, stderr *)
  read_hash : string -> option string;               (* hashing a file; None when it raises *)
  makedirs : string -> outcome unit;                 (* os.makedirs(p, exist_ok=True) *)
  copy2 : string -> string -> outcome unit;          (* shutil.copy2 *)
  open_write : string -> outcome unit;               (* open(p, 'w') / open(p, 'wb') *)
  write_file : string -> outcome unit;               (* the writes to an opened file *)
  name_time : string;                                (* now().strftime at naming *)
  entry_time : string -> string;                     (* now().isoformat() per entry *)
  report_time : string                               (* now().isoformat() in the report *)
}.

(** The external actions of a run.  [OpenForWrite p]: [p] has been created
    or truncated; [WriteFile p c]: [p] has been written in full and holds
    [c]. *)
Inductive event : Type :=
| CheckOutput (argv : list string)
| Popen (argv : list string)
| ReadFile (p : string)
| MakeDirs (p : string)
| Copy2 (src dst : string)
| OpenForWrite (p : string)
| WriteFile (p : string) (c : content).

(** A computation: the actions performed, then a value or an exception. *)
Definition M (A : Type) : Type := list event * outcome A.

Definition ret {A} (a : A) : M A := ([], Ret a).

Definition raise {A} (e : exn) : M A := ([], Raise e).

Definition bind {A B} (m : M A) (k : A -> M B) : M B :=
  match m with
  | (t, Ret a) => let (t', r) := k a in ((t ++ t')%list, r)
  | (t, Raise e) => (t, Raise e)
  end.

Definition emit (e : event) : M unit := ([e], Ret tt).

(** [try: m except Exception as e: h e] *)
Definition catch {A} (m : M A) (h : exn -> M A) : M A :=
  match m with
  | (t, Ret a) => (t, Ret a)
  | (t, Raise e) => let (t', r) := h e in ((t ++ t')%list, r)
  end.

(** [try: m except subprocess.SubprocessError as e: h e] *)
Definition catch_subprocess {A} (m : M A) (h : exn -> M A) : M A :=
  match m with
  | (t, Raise CalledProcessError) =>
      let (t', r) := h CalledProcessError in ((t ++ t')%list, r)
  | other => other
  end.

Definition lift {A} (o : outcome A) : M A := ([], o).

Declare Scope m_scope.
Delimit Scope m_scope with M.
Notation "x <- c ;; k" := (bind c (fun x => k))
  (at level 100, c at next level, right associativity) : m_scope.
Notation "' p <- c ;; k" := (bind c (fun x => let 'p := x in k))
  (at level 100, p pattern, c at next level, right associativity) : m_scope.
Notation "c ;; k" := (bind c (fun _ => k))
  (at level 100, right associativity) : m_scope.
Open Scope m_scope.

Definition trace {A} (m : M A) : list event := fst m.
Definition result {A} (m : M A) : outcome A := snd m.

(** [m], run after the actions [t]. *)
Definition after {A} (t : list event) (m : M A) : M A :=
  ((t ++ trace m)%list, result m).

(** ** The program *)

Section Program.

Variable w : World.

Definition isfile (p : string) : bool :=
  match fs w p with File _ => true | _ => false end.

Definition isdir (p : string) : bool :=
  match fs w p with Dir _ => true | _ => false end.

Definition exists_ (p : string) : bool :=
  match fs w p with Absent => false | _ => true end.

Definition run_check_output (argv : list string) : M string :=
  emit (CheckOutput argv) ;;
  lift (check_output w argv).

Definition log_system_info : M unit :=
  catch_subprocess
    (run_check_output ["whoami"] ;;
     run_check_output ["hostname"] ;;
     run_check_output ["sw_vers"; "-productVersion"] ;;
     run_check_output ["sw_vers"; "-buildVersion"] ;;
     run_check_output ["uname"; "-m"] ;;
     run_check_output ["uname"; "-r"] ;;
     ret tt)
    (fun _ => ret tt).

Definition calculate_hash (file_path : string) : M (option string) :=
  emit (ReadFile file_path) ;;
  ret (read_hash w file_path).

(** The text of an exception, [str(e)]; nothing depends on it. *)
Definition str_exn (e : exn) : string :=
  match e with
  | OverflowError => "OverflowError"
  | TypeError => "TypeError"
  | ValueError => "ValueError"
  | OSError => "OSError"
  | CalledProcessError => "CalledProcessError"
  end.

Definition execute_command (cmd : list string) : M (bool * string) :=
  emit (Popen cmd) ;;
  match popen w cmd with
  | Ret (returncode, stdout, stderr) =>
      if negb (returncode =? 0) then ret (false, stderr)
      else ret (true, stdout)
  | Raise e => ret (false, str_exn e)
  end.

Definition create_command (sparsebundle_path name : string) (size_mb : Z)
  : list string :=
  ["hdiutil"; "create";
   "-size"; str_int size_mb ++ "m";
   "-fs"; "HFS+";
   "-volname"; name;
   "-type"; "SPARSEBUNDLE";
   "-encryption"; "AES-256";
   sparsebundle_path].

Definition create_sparsebundle (destination_path name : string) (size_mb : Z)
  : M (bool * string) :=
  let sparsebundle_path := join destination_path (name ++ ".sparsebundle") in
  if exists_ sparsebundle_path then ret (false, sparsebundle_path)
  else
    let cmd := create_command sparsebundle_path name size_mb in
    '(success, output) <- execute_command cmd ;;
    ret (success, sparsebundle_path).

Definition mount_command (sparsebundle_path : string) : list string :=
  ["hdiutil"; "attach"; sparsebundle_path; "-mountpoint"; "/Volumes/ForensicData"].

Definition mount_sparsebundle (sparsebundle_path : string)
  : M (bool * option string) :=
  '(success, output) <- execute_command (mount_command sparsebundle_path) ;;
  if success then ret (true, Some "/Volumes/ForensicData")
  else ret (false, None).

Definition unmount_command (mount_point : string) : list string :=
  ["hdiutil"; "detach"; mount_point; "-force"].

Definition unmount_sparsebundle (mount_point : string) : M bool :=
  '(success, output) <- execute_command (unmount_command mount_point) ;;
  ret success.

Definition ditto (source target : string) : list string :=
  ["ditto"; "-v"; source; target].

(** [copy_with_metadata(source, destination, hash_log)]: the flag it
    returns, and [hash_log] as it leaves it.  The list is only appended to
    in the file branch, where nothing raises, so the handler returns it
    unchanged. *)
Definition copy_with_metadata (source destination : string)
    (hash_log : list hash_entry) : M (bool * list hash_entry) :=
  catch
    (if isfile source then
       '(success, output) <- execute_command (ditto source destination) ;;
       if success then
         source_hash <- calculate_hash source ;;
         dest_hash <- calculate_hash
                        (if isdir destination
                         then join destination (basename source)
                         else destination) ;;
         let hash_entry :=
           {| source_path := source;
              destination_path := destination;
              sha256_source := source_hash;
              sha256_destination := dest_hash;
              timestamp := entry_time w source |} in
         let hash_log := (hash_log ++ [hash_entry])%list in
         if negb (digest_eqb source_hash dest_hash)
         then ret (false, hash_log)
         else ret (true, hash_log)
       else ret (false, hash_log)
     else if isdir source then
       let dest_dir := join destination (basename source) in
       emit (MakeDirs dest_dir) ;;
       lift (makedirs w dest_dir) ;;
       '(success, output) <- execute_command (ditto source dest_dir) ;;
       if negb success then ret (false, hash_log)
       else ret (true, hash_log)
     else ret (true, hash_log))
    (fun _ => ret (false, hash_log)).

(** The folder dialog is asked again until it is cancelled. *)
Fixpoint until_cancel (answers : list string) : list string :=
  match answers with
  | [] => []
  | a :: rest => if String.eqb a "" then [] else a :: until_cancel rest
  end.

Definition select_files_and_folders : list string :=
  (chosen_files w ++ until_cancel (folder_answers w))%list.

(** [plistlib.dump] in its XML format accepts neither [None] (a plist has
    no null: [TypeError]) nor a string that holds a control character
    other than tab, newline and carriage return ([ValueError]); Python
    library reference, plistlib.  The digests are the only values of the
    report that may be [None].  Which of the two exceptions comes first
    depends on the order of the traversal; the handler of the report step
    treats them alike. *)
Definition plist_writable (r : report_data) : bool :=
  all_digests_present (file_hashes r) && forallb plist_string (report_strings r).

Definition plistlib_dump (r : report_data) (p : string) : M unit :=
  if plist_writable r then
    lift (write_file w p) ;;
    emit (WriteFile p (Plist r))
  else if all_digests_present (file_hashes r) then raise ValueError
  else raise TypeError.

Definition open_for_write (p : string) : M unit :=
  lift (open_write w p) ;;
  emit (OpenForWrite p).

Definition text_header (r : report_data) : list string :=
  [ "FORENSIC SPARSEBUNDLE VERIFICATION REPORT" ++ nl;
    "=====================================" ++ nl ++ nl;
    "Created: " ++ report_timestamp r ++ nl;
    "Sparsebundle: " ++ sparsebundle_path r ++ nl;
    "Tool Version: " ++ tool_version r ++ nl ++ nl;
    "SYSTEM INFORMATION" ++ nl;
    "-----------------" ++ nl;
    "user: " ++ user (report_system_info r) ++ nl;
    "hostname: " ++ hostname (report_system_info r) ++ nl;
    "macos_version: " ++ macos_version (report_system_info r) ++ nl;
    nl ++ "FILE HASHES" ++ nl;
    "-----------" ++ nl ].

Definition text_entry (entry : hash_entry) : list string :=
  [ "Source: " ++ source_path entry ++ nl;
    "Destination: " ++ destination_path entry ++ nl;
    "Source SHA256: " ++ str_digest (sha256_source entry) ++ nl;
    "Destination SHA256: " ++ str_digest (sha256_destination entry) ++ nl;
    "Match: "
      ++ str_bool (digest_eqb (sha256_source entry) (sha256_destination entry))
      ++ nl;
    "Timestamp: " ++ timestamp entry ++ nl ++ nl ].

Definition text_report (r : report_data) (hash_log : list hash_entry)
  : list string :=
  (text_header r ++ flat_map text_entry hash_log)%list.

Definition create_verification_report (hash_log : list hash_entry)
    (output_path sparsebundle_path : string) : M unit :=
  let report_path := join output_path "verification_report.plist" in
  let now := report_time w in
  user <- run_check_output ["whoami"] ;;
  hostname <- run_check_output ["hostname"] ;;
  macos_version <- run_check_output ["sw_vers"; "-productVersion"] ;;
  let report_data :=
    {| report_timestamp := now;
       sparsebundle_path := sparsebundle_path;
       tool_version := "Forensic Sparsebundle Creator 1.0.0";
       report_system_info :=
         {| user := strip user;
            hostname := strip hostname;
            macos_version := strip macos_version |};
       file_hashes := hash_log |} in
  catch
    (open_for_write report_path ;;
     plistlib_dump report_data report_path ;;
     let txt_report_path := join output_path "verification_report.txt" in
     open_for_write txt_report_path ;;
     lift (write_file w txt_report_path) ;;
     emit (WriteFile txt_report_path (Text (text_report report_data hash_log))))
    (fun _ => ret tt).

(** [for path in selected_paths: if not copy_with_metadata(...): success = False] *)
Fixpoint copy_loop (paths : list string) (files_dir : string)
    (hash_log : list hash_entry) (success : bool)
  : M (bool * list hash_entry) :=
  match paths with
  | [] => ret (success, hash_log)
  | path :: rest =>
      '(ok, hash_log) <- copy_with_metadata path files_dir hash_log ;;
      copy_loop rest files_dir hash_log (if negb ok then false else success)
  end.

Definition main_body : M Z :=
  log_system_info ;;
  if negb (String.eqb (platform w) "darwin") then ret 1
  else
    let selected_paths := select_files_and_folders in
    match selected_paths with
    | [] => ret 1
    | _ :: _ =>
        size_needed <- lift (estimate_size_needed (fs w) selected_paths) ;;
        let destination_path := destination_answer w in
        if String.eqb destination_path "" then ret 1
        else
          let sparsebundle_name := "ForensicData_" ++ name_time w in
          '(success, sparsebundle_path) <-
             create_sparsebundle destination_path sparsebundle_name size_needed ;;
          if negb success then ret 1
          else
            '(success, mount_point) <- mount_sparsebundle sparsebundle_path ;;
            if negb success then ret 1
            else
              match mount_point with
              | None => raise TypeError
              | Some mount_point =>
                  let log_dir_in_sparsebundle := join mount_point "forensic_logs" in
                  emit (MakeDirs log_dir_in_sparsebundle) ;;
                  lift (makedirs w log_dir_in_sparsebundle) ;;
                  emit (Copy2 (log_file w) log_dir_in_sparsebundle) ;;
                  lift (copy2 w (log_file w) log_dir_in_sparsebundle) ;;
                  let files_dir := join mount_point "copied_files" in
                  emit (MakeDirs files_dir) ;;
                  lift (makedirs w files_dir) ;;
                  '(success, hash_log) <-
                     copy_loop selected_paths files_dir [] true ;;
                  create_verification_report hash_log log_dir_in_sparsebundle
                    sparsebundle_path ;;
                  unmounted <- unmount_sparsebundle mount_point ;;
                  if negb unmounted then ret 1
                  else if success then ret 0
                  else ret 1
              end
    end.

(** [main]: any exception that escapes is logged and gives status 1. *)
Definition main : M Z := catch main_body (fun _ => ret 1).

End Program.

(** ** A run of [main], stage by stage *)

Definition returns {A} (o : outcome A) : bool :=
  match o with
  | Ret _ => true
  | Raise _ => false
  end.

(** [execute_command] reported success. *)
Definition command_ok (w : World) (cmd : list string) : bool :=
  match result (execute_command w cmd) with
  | Ret (success, _) => success
  | Raise _ => false
  end.

(** What one call of [copy_with_metadata] does, returns and records. *)
Definition item_trace (w : World) (destination source : string) : list event :=
  trace (copy_with_metadata w source destination []).

Definition item_flag (w : World) (destination source : string) : bool :=
  match result (copy_with_metadata w source destination []) with
  | Ret (ok, _) => ok
  | Raise _ => false
  end.

Definition item_entries (w : World) (destination source : string)
  : list hash_entry :=
  match result (copy_with_metadata w source destination []) with
  | Ret (_, hash_log) => hash_log
  | Raise _ => []
  end.

(** The values [main] computes on its way. *)
Definition run_selection (w : World) : list string := select_files_and_folders w.

Definition run_size (w : World) : outcome Z :=
  estimate_size_needed (fs w) (run_selection w).

Definition run_name (w : World) : string := "ForensicData_" ++ name_time w.

Definition run_bundle (w : World) : string :=
  join (destination_answer w) (run_name w ++ ".sparsebundle").

Definition mount_point : string := "/Volumes/ForensicData".
Definition log_dir : string := join mount_point "forensic_logs".
Definition files_dir : string := join mount_point "copied_files".

(** The stages of a run. *)
Definition preconditions_ok (w : World) : bool :=
  returns (result (log_system_info w))
  && String.eqb (platform w) "darwin"
  && match run_selection w with [] => false | _ :: _ => true end
  && returns (run_size w)
  && negb (String.eqb (destination_answer w) "").

Definition create_ok (w : World) : bool :=
  match run_size w with
  | Ret size_needed =>
      match result (create_sparsebundle w (destination_answer w) (run_name w)
                      size_needed) with
      | Ret (success, _) => success
      | Raise _ => false
      end
  | Raise _ => false
  end.

Definition mount_ok (w : World) : bool :=
  match result (mount_sparsebundle w (run_bundle w)) with
  | Ret (success, _) => success
  | Raise _ => false
  end.

Definition setup_ok (w : World) : bool :=
  returns (makedirs w log_dir)
  && returns (copy2 w (log_file w) log_dir)
  && returns (makedirs w files_dir).

Definition reaches_copy_stage (w : World) : bool :=
  preconditions_ok w && create_ok w && mount_ok w && setup_ok w.

(** What precedes the copy loop in a run that reaches it. *)
Definition setup_trace (w : World) : list event :=
  (trace (log_system_info w)
   ++ match run_size w with
      | Ret size_needed =>
          trace (create_sparsebundle w (destination_answer w) (run_name w)
                   size_needed)
      | Raise _ => []
      end
   ++ trace (mount_sparsebundle w (run_bundle w))
   ++ [MakeDirs log_dir; Copy2 (log_file w) log_dir; MakeDirs files_dir])%list.

Definition run_copies (w : World) : M (bool * list hash_entry) :=
  copy_loop w (run_selection w) files_dir [] true.

Definition copies_ok (w : World) : bool :=
  forallb (item_flag w files_dir) (run_selection w).

Definition run_hash_log (w : World) : list hash_entry :=
  flat_map (item_entries w files_dir) (run_selection w).

Definition run_report (w : World) : M unit :=
  create_verification_report w (run_hash_log w) log_dir (run_bundle w).

Definition report_returns (w : World) : bool := returns (result (run_report w)).

Definition run_unmount (w : World) : M bool := unmount_sparsebundle w mount_point.

Definition unmount_ok (w : World) : bool :=
  match result (run_unmount w) with
  | Ret success => success
  | Raise _ => false
  end.

Definition run_ok (w : World) : bool :=
  reaches_copy_stage w && copies_ok w && report_returns w && unmount_ok w.

(** ** Reading a trace *)

Definition is_copy_command (e : event) : bool :=
  match e with
  | Popen (c :: _) => String.eqb c "ditto"
  | _ => false
  end.

Definition is_hdiutil (verb : string) (e : event) : bool :=
  match e with
  | Popen (c :: v :: _) => String.eqb c "hdiutil" && String.eqb v verb
  | _ => false
  end.

Definition is_unmount : event -> bool := is_hdiutil "detach".

(** Opening or writing a file: only the report step does. *)
Definition is_report_write (e : event) : bool :=
  match e with
  | OpenForWrite _ | WriteFile _ _ => true
  | _ => false
  end.

(** Anything that touches a container: creating, attaching or detaching
    it, copying into it, making directories or writing files. *)
Definition touches_container (e : event) : bool :=
  match e with
  | CheckOutput _ | ReadFile _ => false
  | _ => true
  end.

Fixpoint written_plists (t : list event) : list (string * report_data) :=
  match t with
  | [] => []
  | WriteFile p (Plist r) :: t' => (p, r) :: written_plists t'
  | _ :: t' => written_plists t'
  end.

Fixpoint written_texts (t : list event) : list (string * list string) :=
  match t with
  | [] => []
  | WriteFile p (Text c) :: t' => (p, c) :: written_texts t'
  | _ :: t' => written_texts t'
  end.

(** The part of the text report after its header of twelve writes. *)
Definition text_records (chunks : list string) : list string := skipn 12 chunks.

(** The content of a record, its own timestamp included. *)
Definition record_content (e : hash_entry)
  : string * string * option string * option string * bool * string :=
  (source_path e, destination_path e, sha256_source e, sha256_destination e,
   digest_eqb (sha256_source e) (sha256_destination e), timestamp e).

(** The system queries of the report step all answer. *)
Definition queries_ok (w : World) : bool :=
  returns (check_output w ["whoami"])
  && returns (check_output w ["hostname"])
  && returns (check_output w ["sw_vers"; "-productVersion"]).

(** Where a selected file is hashed after its copy. *)
Definition copied_path (w : World) (destination source : string) : string :=
  if isdir w destination then join destination (basename source)
  else destination.

(** The entry [copy_with_metadata] appends for a copied file. *)
Definition entry_for (w : World) (destination source : string) : hash_entry :=
  {| source_path := source;
     destination_path := destination;
     sha256_source := read_hash w source;
     sha256_destination := read_hash w (copied_path w destination source);
     timestamp := entry_time w source |}.

Definition digests_match (e : hash_entry) : bool :=
  digest_eqb (sha256_source e) (sha256_destination e).

(** The commands given to [execute_command], in order. *)
Definition commands (t : list event) : list (list string) :=
  flat_map (fun e => match e with Popen argv => [argv] | _ => [] end) t.

Definition is_query (e : event) : bool :=
  match e with
  | CheckOutput _ => true
  | _ => false
  end.

(** ** Sample worlds *)

Definition one_file (size : N) : string -> node := fun _ => File size.

(** A directory that holds a file of 10 bytes, a link to a file of 30
    bytes and a link to a directory with one file of 200 MiB. *)
Definition behind_link : string -> node :=
  fun _ => Dir [Plain (File 10); Link (File 30);
                Link (Dir [Plain (File 209715200)])].

Definition sample_fs (files : list string) (p : string) : node :=
  if existsb (String.eqb p) files then File 4096
  else if String.eqb p files_dir then Dir []
  else Absent.

Definition all_commands_ok (cmd : list string) : outcome (Z * string * string) :=
  Ret (0, "", "").

Definition sample_world (files : list string)
    (commands : list string -> outcome (Z * string * string))
    (hashes : string -> option string)
    (opens : string -> outcome unit) : World :=
  {| platform := "darwin";
     log_file := "/Users/examiner/forensic_logs/run.log";
     check_output := fun _ => Ret ("examiner" ++ nl);
     chosen_files := files;
     folder_answers := [];
     destination_answer := "/cases";
     fs := sample_fs files;
     popen := commands;
     read_hash := hashes;
     makedirs := fun _ => Ret tt;
     copy2 := fun _ _ => Ret tt;
     open_write := opens;
     write_file := fun _ => Ret tt;
     name_time := "20240101_120000";
     entry_time := fun _ => "2024-01-01T12:00:05";
     report_time := "2024-01-01T12:00:09" |}.

Definition three_files : list string :=
  ["/evidence/a.txt"; "/evidence/b.txt"; "/evidence/c.txt"].

Definition same_hash (p : string) : option string := Some "9f86d081".

(** Everything succeeds. *)
Definition clean_world : World :=
  sample_world three_files all_commands_ok same_hash (fun _ => Ret tt).

(** The copy of [/evidence/b.txt] is forced to fail. *)
Definition one_copy_fails : World :=
  sample_world three_files
    (fun cmd => match cmd with
                | [_; _; src; _] =>
                    if String.eqb src "/evidence/b.txt" then Ret (1, "", "ditto: failed")
                    else Ret (0, "", "")
                | _ => Ret (0, "", "")
                end)
    same_hash (fun _ => Ret tt).

(** The report files cannot be opened. *)
Definition report_unwritable : World :=
  sample_world three_files all_commands_ok same_hash (fun _ => Raise OSError).

(** Hashing fails on both sides of [/evidence/a.txt], the only selection. *)
Definition hashing_fails : World :=
  sample_world ["/evidence/a.txt"] all_commands_ok (fun _ => None)
    (fun _ => Ret tt).

(** The copy of [/evidence/b.txt] arrives with another digest. *)
Definition one_copy_corrupt : World :=
  sample_world three_files all_commands_ok
    (fun p => if String.eqb p (join files_dir "b.txt") then Some "deadbeef"
              else Some "9f86d081")
    (fun _ => Ret tt).

(** Nothing is selected. *)
Definition nothing_selected : World :=
  sample_world [] all_commands_ok same_hash (fun _ => Ret tt).

(** A container already sits at the derived path. *)
Definition bundle_exists : World :=
  {| platform := "darwin";
     log_file := "/Users/examiner/forensic_logs/run.log";
     check_output := fun _ => Ret ("examiner" ++ nl);
     chosen_files := three_files;
     folder_answers := [];
     destination_answer := "/cases";
     fs := fun p => if String.eqb p "/cases/ForensicData_20240101_120000.sparsebundle"
                    then Dir [] else sample_fs three_files p;
     popen := all_commands_ok;
     read_hash := same_hash;
     makedirs := fun _ => Ret tt;
     copy2 := fun _ _ => Ret tt;
     open_write := fun _ => Ret tt;
     write_file := fun _ => Ret tt;
     name_time := "20240101_120000";
     entry_time := fun _ => "2024-01-01T12:00:05";
     report_time := "2024-01-01T12:00:09" |}.

(** ** The report step *)

Definition plist_path (output_path : string) : string :=
  join output_path "verification_report.plist".

Definition txt_path (output_path : string) : string :=
  join output_path "verification_report.txt".

Definition answer (w : World) (argv : list string) : string :=
  match check_output w argv with
  | Ret s => strip s
  | Raise _ => ""
  end.

(** The [report_data] dict of a report step whose queries answer. *)
Definition report_record (w : World) (hash_log : list hash_entry)
    (sparsebundle_path : string) : report_data :=
  {| report_timestamp := report_time w;
     sparsebundle_path := sparsebundle_path;
     tool_version := "Forensic Sparsebundle Creator 1.0.0";
     report_system_info :=
       {| user := answer w ["whoami"];
          hostname := answer w ["hostname"];
          macos_version := answer w ["sw_vers"; "-productVersion"] |};
     file_hashes := hash_log |}.

Definition query_events : list event :=
  [CheckOutput ["whoami"]; CheckOutput ["hostname"];
   CheckOutput ["sw_vers"; "-productVersion"]].

(** Both artifacts, written in full. *)
Definition report_artifacts (w : World) (hash_log : list hash_entry)
    (output_path sparsebundle_path : string) : list event :=
  let r := report_record w hash_log sparsebundle_path in
  [OpenForWrite (plist_path output_path);
   WriteFile (plist_path output_path) (Plist r);
   OpenForWrite (txt_path output_path);
   WriteFile (txt_path output_path) (Text (text_report r hash_log))].

(** Both report files can be opened and written. *)
Definition files_writable (w : World) (output_path : string) : bool :=
  returns (open_write w (plist_path output_path))
  && returns (write_file w (plist_path output_path))
  && returns (open_write w (txt_path output_path))
  && returns (write_file w (txt_path output_path)).

(** The report step can write both artifacts: its queries answer, the
    structured dump accepts the report and both files can be opened and
    written. *)
Definition report_writable (w : World) (hash_log : list hash_entry)
    (output_path sparsebundle_path : string) : bool :=
  queries_ok w
  && plist_writable (report_record w hash_log sparsebundle_path)
  && files_writable w output_path.

Definition neither_copy_nor_unmount (e : event) : bool :=
  negb (is_copy_command e) && negb (is_unmount e).

Definition neither_write_nor_unmount (e : event) : bool :=
  negb (is_report_write e) && negb (is_unmount e).

Definition neither_copy_nor_write (e : event) : bool :=
  negb (is_copy_command e) && negb (is_report_write e).

(** [clean_world], with the report step run a day later by someone else. *)
Definition clean_world_later : World :=
  {| platform := "darwin";
     log_file := "/Users/examiner/forensic_logs/run.log";
     check_output := fun _ => Ret ("reviewer" ++ nl);
     chosen_files := three_files;
     folder_answers := [];
     destination_answer := "/cases";
     fs := sample_fs three_files;
     popen := all_commands_ok;
     read_hash := same_hash;
     makedirs := fun _ => Ret tt;
     copy2 := fun _ _ => Ret tt;
     open_write := fun _ => Ret tt;
     write_file := fun _ => Ret tt;
     name_time := "20240101_120000";
     entry_time := fun _ => "2024-01-01T12:00:05";
     report_time := "2024-01-02T08:30:00" |}.

From Stdlib Require Import Permutation.

(** ** The trace of a run, stage by stage *)

Definition create_trace (w : World) : list event :=
  match run_size w with
  | Ret size_needed =>
      trace (create_sparsebundle w (destination_answer w) (run_name w)
               size_needed)
  | Raise _ => []
  end.

(** What a run does after a successful mount. *)
Definition mounted_trace (w : World) : list event :=
  MakeDirs log_dir
  :: (if returns (makedirs w log_dir) then
        Copy2 (log_file w) log_dir
        :: (if returns (copy2 w (log_file w) log_dir) then
              MakeDirs files_dir
              :: (if returns (makedirs w files_dir) then
                    trace (run_copies w) ++ trace (run_report w)
                    ++ (if report_returns w then trace (run_unmount w) else [])
                  else [])
            else [])
      else [])%list.

(** Every run of [main] stops at the first stage that fails. *)
Definition staged_trace (w : World) : list event :=
  (trace (log_system_info w)
   ++ (if preconditions_ok w then
         create_trace w
         ++ (if create_ok w then
               trace (mount_sparsebundle w (run_bundle w))
               ++ (if mount_ok w then mounted_trace w else [])
             else [])
       else []))%list.

(** ** The queries of [log_system_info] *)

Definition system_queries : list (list string) :=
  [["whoami"]; ["hostname"]; ["sw_vers"; "-productVersion"];
   ["sw_vers"; "-buildVersion"]; ["uname"; "-m"]; ["uname"; "-r"]].

(** The queries of a list that are asked when they are asked in turn up
    to the first that raises: each one whose predecessors all answered. *)
Fixpoint asked (w : World) (queries : list (list string))
  : list (list string) :=
  match queries with
  | [] => []
  | q :: rest =>
      q :: (if returns (check_output w q) then asked w rest else [])
  end.

(** What the first query to raise raises, if one does. *)
Fixpoint first_raise (w : World) (queries : list (list string)) : option exn :=
  match queries with
  | [] => None
  | q :: rest =>
      match check_output w q with
      | Ret _ => first_raise w rest
      | Raise e => Some e
      end
  end.

Definition is_attach : event -> bool := is_hdiutil "attach".
Definition is_create : event -> bool := is_hdiutil "create".

(** ** What a run writes to *)

(** The path an action creates or changes, if any: the target of a copy,
    the bundle a [hdiutil create] makes, the mount point of an attach or a
    detach, a directory made, a file opened or written.  The run log,
    which the logging handlers write under the home directory, is not
    among the actions of a run. *)
Definition write_target (e : event) : option string :=
  match e with
  | CheckOutput _ | ReadFile _ => None
  | MakeDirs p => Some p
  | Copy2 _ dst => Some dst
  | OpenForWrite p => Some p
  | WriteFile p _ => Some p
  | Popen argv =>
      match argv with
      | c :: rest =>
          if String.eqb c "ditto" then nth_error rest 2
          else if String.eqb c "hdiutil" then
            match rest with
            | verb :: args =>
                if String.eqb verb "create" then Some (last args "")
                else if String.eqb verb "attach" then nth_error args 2
                else nth_error args 0
            | [] => None
            end
          else None
      | [] => None
      end
  end.

(** An action that changes nothing outside the container of the run: it
    writes nowhere, or to the bundle, or under the mount point. *)
Definition confined (w : World) (e : event) : bool :=
  match write_target e with
  | None => true
  | Some t => String.eqb t (run_bundle w) || String.prefix mount_point t
  end.

(** The actions an item of the selection can cause. *)
Definition is_item_event (e : event) : bool :=
  match e with
  | Popen (c :: _) => String.eqb c "ditto"
  | ReadFile _ | MakeDirs _ => true
  | _ => false
  end.

(** The actions the report step can cause. *)
Definition is_report_event (e : event) : bool :=
  match e with
  | CheckOutput _ | OpenForWrite _ | WriteFile _ _ => true
  | _ => false
  end.

(** The report queries raise, everything else succeeds. *)
Definition queries_fail : World :=
  {| platform := "darwin";
     log_file := "/Users/examiner/forensic_logs/run.log";
     check_output := fun _ => Raise CalledProcessError;
     chosen_files := three_files;
     folder_answers := [];
     destination_answer := "/cases";
     fs := sample_fs three_files;
     popen := all_commands_ok;
     read_hash := same_hash;
     makedirs := fun _ => Ret tt;
     copy2 := fun _ _ => Ret tt;
     open_write := fun _ => Ret tt;
     write_file := fun _ => Ret tt;
     name_time := "20240101_120000";
     entry_time := fun _ => "2024-01-01T12:00:05";
     report_time := "2024-01-01T12:00:09" |}.

(** The copy command an item of the selection gives rise to, if any. *)
Definition copy_commands_of (w : World) (destination source : string)
  : list (list string) :=
  if isfile w source then [ditto source destination]
  else if isdir w source
          && returns (makedirs w (join destination (basename source)))
       then [ditto source (join destination (basename source))]
       else [].



(** A selection of one directory. *)
Definition one_folder : World :=
  {| platform := "darwin";
     log_file := "/Users/examiner/forensic_logs/run.log";
     check_output := fun _ => Ret ("examiner" ++ nl);
     chosen_files := [];
     folder_answers := ["/evidence/case7"; ""; "/evidence/ignored"];
     destination_answer := "/cases";
     fs := fun p => if String.eqb p "/evidence/case7"
                    then Dir [Plain (File 10);
                              Plain (Dir [Plain (File 20); Plain (Special 0)]);
                              Link Absent]
                    else sample_fs [] p;
     popen := all_commands_ok;
     read_hash := same_hash;
     makedirs := fun _ => Ret tt;
     copy2 := fun _ _ => Ret tt;
     open_write := fun _ => Ret tt;
     write_file := fun _ => Ret tt;
     name_time := "20240101_120000";
     entry_time := fun _ => "2024-01-01T12:00:05";
     report_time := "2024-01-01T12:00:09" |}.

(** A file is recorded when it is a regular file whose copy command
    succeeded. *)
Definition recorded (w : World) (destination source : string) : bool :=
  isfile w source && command_ok w (ditto source destination).

(** ** Reading the text report *)

(** The text of a file: what was written to it, in order. *)
Definition file_text (chunks : list string) : string :=
  fold_right append "" chunks.

(** The lines of a text: what stands between its line feeds. *)
Fixpoint lines (text : string) : list string :=
  match text with
  | EmptyString => [""]
  | String c rest =>
      if Ascii.eqb c "010"%char then "" :: lines rest
      else
        match lines rest with
        | line :: more => String c line :: more
        | [] => [String c ""]
        end
  end.

(** A string without a line feed or a carriage return. *)
Fixpoint single_line (s : string) : bool :=
  match s with
  | EmptyString => true
  | String c rest =>
      negb (Ascii.eqb c "010"%char) && negb (Ascii.eqb c "013"%char)
      && single_line rest
  end.

(** The lines of a text report that read as a mismatch, or as a match. *)
Definition mismatch_lines (chunks : list string) : nat :=
  List.length (filter (String.eqb "Match: False") (lines (file_text chunks))).

Definition match_lines (chunks : list string) : nat :=
  List.length (filter (String.eqb "Match: True") (lines (file_text chunks))).

(** The lines of the header when its strings are single lines. *)
Definition header_lines (r : report_data) : list string :=
  [ "FORENSIC SPARSEBUNDLE VERIFICATION REPORT";
    "=====================================";
    "";
    "Created: " ++ report_timestamp r;
    "Sparsebundle: " ++ sparsebundle_path r;
    "Tool Version: " ++ tool_version r;
    "";
    "SYSTEM INFORMATION";
    "-----------------";
    "user: " ++ user (report_system_info r);
    "hostname: " ++ hostname (report_system_info r);
    "macos_version: " ++ macos_version (report_system_info r);
    "";
    "FILE HASHES";
    "-----------" ].

(** The lines a record gives rise to when its strings are single lines. *)
Definition entry_lines (e : hash_entry) : list string :=
  [ "Source: " ++ source_path e;
    "Destination: " ++ destination_path e;
    "Source SHA256: " ++ str_digest (sha256_source e);
    "Destination SHA256: " ++ str_digest (sha256_destination e);
    "Match: "
      ++ str_bool (digest_eqb (sha256_source e) (sha256_destination e));
    "Timestamp: " ++ timestamp e;
    "" ].

(** A record whose digests differ and whose source path holds a line
    feed followed by the words of a match. *)
Definition forged_entry : hash_entry :=
  {| source_path := "/evidence/x" ++ nl ++ "Match: True";
     destination_path := "/Volumes/ForensicData/copied_files";
     sha256_source := Some "9f86d081";
     sha256_destination := Some "deadbeef";
     timestamp := "2024-01-01T12:00:05" |}.

(** ** Hashing a file in chunks *)

Definition chunk_size : nat := 4096.

Section Hashing.

(** The hash object of [hashlib]: its state, [new], [update] and
    [hexdigest]. *)
Variable hash_obj : Type.
Variable new : hash_obj.
Variable update : hash_obj -> list Byte.byte -> hash_obj.
Variable hexdigest : hash_obj -> string.

(** [for chunk in iter(lambda: f.read(4096), b''): hash_obj.update(chunk)]
    on the bytes not yet read; [reads] bounds the number of calls of
    [f.read]. *)
Fixpoint hash_chunks (reads : nat) (h : hash_obj) (unread : list Byte.byte)
  : option hash_obj :=
  match reads with
  | O => None
  | S reads' =>
      match firstn chunk_size unread with
      | [] => Some h
      | chunk => hash_chunks reads' (update h chunk) (skipn chunk_size unread)
      end
  end.

(** [calculate_hash] on a file that holds [data], or cannot be opened or
    read ([Raise]): any exception is logged and gives [None]. *)
Definition calculate_hash_of (file : outcome (list Byte.byte)) : option string :=
  match file with
  | Raise _ => None
  | Ret data =>
      match hash_chunks (S (List.length data)) new data with
      | Some h => Some (hexdigest h)
      | None => None
      end
  end.

End Hashing.

Arguments hash_chunks {hash_obj} update reads h unread.
Arguments calculate_hash_of {hash_obj} new update hexdigest file.

(** A hash object that only records the chunks it is given. *)
Definition record_chunk (chunks : list (list Byte.byte)) (chunk : list Byte.byte)
  : list (list Byte.byte) :=
  (chunks ++ [chunk])%list.

(** ** The value of a rounding *)

(** The integer [m] rounded to 53 significant bits, as an integer. *)
Definition rounded (m : Z) : Z :=
  Float.mant (Float.round53 m 0) * 2 ^ Float.expo (Float.round53 m 0).
(** ** Sizing: sample values *)

Example estimate_small : estimate_size_needed (one_file 1) ["/a"] = Ret 100.
Proof. vm_compute. reflexivity. Qed.

Example estimate_100MiB_plus_1 :
  estimate_size_needed (one_file 104857601) ["/a"] = Ret 110.
Proof. vm_compute. reflexivity. Qed.

Example estimate_1GiB :
  estimate_size_needed (one_file 1073741824) ["/a"] = Ret 1126.
Proof. vm_compute. reflexivity. Qed.

(** The arithmetic of [Float] agrees with IEEE 754 binary64 on sample
    totals: small, exact, a tie at 2^53 + 1, and very large ones. *)
Example float_agrees_with_ieee :
  forallb (fun total =>
             match float_size_mb total, ieee_to_int (ieee_size_mb total) with
             | Ret a, Ret b => a =? b
             | _, _ => false
             end)
    [0; 1; 1048576; 104857600; 104857601; 1073741824; 4294967295;
     9007199254740993; 9007199254740995; 1152921504606859321;
     9481169350320005832342; 2 ^ 200 + 12345] = true.
Proof. vm_compute. reflexivity. Qed.

(** Above 2^73 bytes even the floor is missed. *)
Example floor_missed_when_huge :
  estimate_size_needed (one_file 9481169350320005832342) ["/a"]
  = Ret 9946142468788152
  /\ floor_mb 9481169350320005832342 = 9946142468788153.
Proof. split; vm_compute; reflexivity. Qed.

(** ** Sizing: proofs *)



Lemma excess_small (m : Z) : 0 <= m < 2 ^ 53 -> Float.excess m <= 0.
Proof.
  intros [H0 H]. unfold Float.excess.
  destruct (Z.eq_dec m 0) as [->|Hm]; [cbn; lia|].
  assert (Z.log2 m < 53) by (apply Z.log2_lt_pow2; lia). lia.
Qed.

Lemma excess_bound (m k : Z) :
  0 < k -> 0 <= m < 2 ^ (53 + k) -> Float.excess m <= k.
Proof.
  intros Hk [H0 H]. unfold Float.excess.
  destruct (Z.eq_dec m 0) as [->|Hm]; [cbn; lia|].
  assert (Z.log2 m < 53 + k) by (apply Z.log2_lt_pow2; lia). lia.
Qed.

Lemma round53_exact (m e : Z) :
  0 <= m < 2 ^ 53 -> Float.round53 m e = Float.mk m e.
Proof.
  intros H. unfold Float.round53.
  pose proof (excess_small m H) as Hs.
  destruct (Float.excess m <=? 0) eqn:E; [reflexivity|].
  apply Z.leb_gt in E. lia.
Qed.

(** Rounding never goes below the truncated mantissa. *)
Lemma round53_mant_ge (m e : Z) :
  0 < Float.excess m ->
  Z.shiftr m (Float.excess m) <= Float.mant (Float.round53 m e)
  /\ Float.expo (Float.round53 m e) = e + Float.excess m.
Proof.
  intros Hs. unfold Float.round53.
  destruct (Float.excess m <=? 0) eqn:E; [apply Z.leb_le in E; lia|].
  cbn [Float.mant Float.expo]. split; [|reflexivity].
  destruct (_ || _); lia.
Qed.

Lemma round53_mant_le (m e : Z) :
  0 <= m -> 0 < Float.excess m ->
  Float.mant (Float.round53 m e) <= 2 ^ 53.
Proof.
  intros Hm Hs. unfold Float.round53.
  destruct (Float.excess m <=? 0) eqn:E; [apply Z.leb_le in E; lia|].
  cbn [Float.mant].
  assert (Hq : Z.shiftr m (Float.excess m) < 2 ^ 53).
  { rewrite Z.shiftr_div_pow2 by lia.
    apply Z.div_lt_upper_bound; [apply Z.pow_pos_nonneg; lia|].
    rewrite <- Z.pow_add_r by lia.
    unfold Float.excess in *.
    replace (Z.log2 m + 1 - 53 + 53) with (Z.succ (Z.log2 m)) by lia.
    apply Z.log2_spec.
    destruct (Z.eq_dec m 0) as [->|]; [cbn in Hs; lia | lia]. }
  destruct (_ || _); lia.
Qed.

(** The code's product [x * 1.1], truncated, dominates every integer
    [n] with [n * 2^72] below the exact product of the mantissas. *)
Lemma to_int_round53_ge (p n : Z) :
  0 <= n -> n * 2 ^ 72 <= p -> p < 2 ^ 106 ->
  exists r, Float.to_int (Some (Float.round53 p (-72))) = Ret r /\ n <= r.
Proof.
  intros Hn Hnp Hp.
  assert (Hp0 : 0 <= p) by nia.
  destruct (Z_le_gt_dec (Float.excess p) 0) as [Hs|Hs].
  - unfold Float.round53. apply Z.leb_le in Hs. rewrite Hs.
    cbn [Float.to_int Float.expo Float.mant].
    eexists; split; [reflexivity|].
    cbn [Z.leb Z.compare Z.opp].
    rewrite Z.shiftr_div_pow2 by lia.
    apply Z.div_le_lower_bound; lia.
  - assert (Hk : Float.excess p <= 53)
      by (apply excess_bound; [lia | split; [lia | exact Hp]]).
    destruct (round53_mant_ge p (-72) ltac:(lia)) as [Hq He].
    cbn [Float.to_int]. eexists; split; [reflexivity|].
    rewrite He.
    destruct (0 <=? -72 + Float.excess p) eqn:E;
      [apply Z.leb_le in E; lia|].
    rewrite Z.shiftr_div_pow2 by lia.
    set (s := Float.excess p) in *.
    assert (H2s : 0 < 2 ^ s) by (apply Z.pow_pos_nonneg; lia).
    assert (H2t : 0 < 2 ^ (72 - s)) by (apply Z.pow_pos_nonneg; lia).
    apply Z.div_le_lower_bound; [replace (- (-72 + s)) with (72 - s) by lia; lia|].
    replace (- (-72 + s)) with (72 - s) by lia.
    apply Z.le_trans with (Z.shiftr p s); [|exact Hq].
    rewrite Z.shiftr_div_pow2 by lia.
    apply Z.div_le_lower_bound; [lia|].
    replace (2 ^ s * (2 ^ (72 - s) * n)) with (n * (2 ^ (72 - s) * 2 ^ s)) by ring.
    rewrite <- Z.pow_add_r by lia.
    replace (72 - s + s) with 72 by lia. exact Hnp.
Qed.

Lemma round53_no_overflow (m e : Z) :
  0 <= m -> e + Float.excess m <= 900 -> e <= 900 ->
  Float.overflows (Float.round53 m e) = false.
Proof.
  intros Hm He He'. unfold Float.overflows.
  destruct (Z_le_gt_dec (Float.excess m) 0) as [Hs|Hs].
  - unfold Float.round53. pose proof Hs as Hs'. apply Z.leb_le in Hs'.
    rewrite Hs'. cbn [Float.mant Float.expo].
    unfold Float.excess in Hs.
    destruct (0 <? m); [|reflexivity]. cbn [andb].
    apply Z.ltb_ge. lia.
  - pose proof (round53_mant_le m e Hm ltac:(lia)) as Hle.
    destruct (round53_mant_ge m e ltac:(lia)) as [_ Hx]. rewrite Hx.
    destruct (0 <? Float.mant (Float.round53 m e)) eqn:E; [|reflexivity].
    cbn [andb]. apply Z.ltb_ge. apply Z.ltb_lt in E.
    assert (Z.log2 (Float.mant (Float.round53 m e)) <= 53).
    { replace 53 with (Z.log2 (2 ^ 53)) by (rewrite Z.log2_pow2; lia).
      apply Z.log2_le_mono. exact Hle. }
    lia.
Qed.

(** The walk counts at least the regular files. *)
Fixpoint regular_le_walk (n : node) : (regular_bytes n <= walk_size n)%N.
Proof.
  destruct n as [s|es|s|]; cbn [regular_bytes walk_size]; try lia.
  induction es as [|[e|t] es IH]; [lia| |].
  - pose proof (regular_le_walk e). lia.
  - destruct t; cbn [linked_size]; lia.
Qed.

Lemma regular_le_path (n : node) : (regular_bytes n <= path_size n)%N.
Proof.
  destruct n as [s|es|s|]; cbn [path_size regular_bytes]; try lia.
  apply (regular_le_walk (Dir es)).
Qed.

Lemma total_size_from (fs : string -> node) (paths : list string) (acc : N) :
  fold_left (fun a p => (a + path_size (fs p))%N) paths acc
  = (acc + total_size fs paths)%N.
Proof.
  unfold total_size. revert acc.
  induction paths as [|p ps IH]; intros acc; cbn [fold_left]; [lia|].
  rewrite IH. rewrite (IH (0 + _)%N). lia.
Qed.

Lemma total_bytes_le_size (fs : string -> node) (paths : list string) :
  (total_bytes fs paths <= total_size fs paths)%N.
Proof.
  induction paths as [|p ps IH]; [cbn; lia|].
  unfold total_size. cbn [fold_left total_bytes fold_right].
  rewrite total_size_from. fold (total_bytes fs ps).
  pose proof (regular_le_path (fs p)). lia.
Qed.



(** A mantissa with [s] bits in excess lies in [[2^(52+s), 2^(53+s))]. *)
Lemma excess_spec (m : Z) :
  0 < Float.excess m ->
  2 ^ 52 * 2 ^ Float.excess m <= m < 2 ^ 53 * 2 ^ Float.excess m.
Proof.
  unfold Float.excess. intros Hs.
  assert (Hm : 0 < m).
  { destruct (Z_lt_le_dec 0 m) as [|Hle]; [assumption|].
    rewrite (Z.log2_nonpos m Hle) in Hs. lia. }
  pose proof (Z.log2_spec m Hm) as [Hlo Hhi].
  rewrite <- !Z.pow_add_r by lia.
  replace (52 + (Z.log2 m + 1 - 53)) with (Z.log2 m) by lia.
  replace (53 + (Z.log2 m + 1 - 53)) with (Z.succ (Z.log2 m)) by lia.
  lia.
Qed.

(** Rounding to nearest loses at most half a unit of the last place. *)
Lemma round53_near (m e : Z) :
  0 < Float.excess m ->
  let a := Float.mant (Float.round53 m e) in
  2 * m - 2 ^ Float.excess m <= 2 * (a * 2 ^ Float.excess m)
  /\ 2 ^ 52 <= a <= 2 ^ 53.
Proof.
  intros Hs a. subst a.
  destruct (excess_spec m Hs) as [Hlo Hhi].
  unfold Float.round53.
  destruct (Float.excess m <=? 0) eqn:E; [apply Z.leb_le in E; lia|].
  cbn [Float.mant].
  set (s := Float.excess m) in *.
  assert (HP : 0 < 2 ^ s) by (apply Z.pow_pos_nonneg; lia).
  assert (Hhalf : 2 * 2 ^ (s - 1) = 2 ^ s).
  { rewrite <- Z.pow_succ_r by lia. f_equal. lia. }
  rewrite Z.shiftr_div_pow2, Z.land_ones by lia.
  pose proof (Z.div_mod m (2 ^ s) ltac:(lia)) as Hdm.
  pose proof (Z.mod_pos_bound m (2 ^ s) HP) as Hr.
  assert (Hq : 2 ^ 52 <= m / 2 ^ s < 2 ^ 53).
  { split.
    - apply Z.div_le_lower_bound; lia.
    - apply Z.div_lt_upper_bound; lia. }
  set (q := m / 2 ^ s) in *. set (r := m mod 2 ^ s) in *.
  destruct (2 ^ (s - 1) <? r) eqn:Hup; cbn [orb].
  - split; nia.
  - apply Z.ltb_ge in Hup.
    destruct ((r =? 2 ^ (s - 1)) && Z.odd q); split; nia.
Qed.

Lemma to_int_scaled (c k : Z) :
  0 <= k ->
  Float.to_int (Some (Float.mk c (- k))) = Ret (c / 2 ^ k).
Proof.
  intros Hk. cbn [Float.to_int Float.expo Float.mant].
  destruct (0 <=? - k) eqn:E.
  - apply Z.leb_le in E. replace k with 0 by lia.
    cbn. rewrite Z.div_1_r, Z.mul_1_r. reflexivity.
  - rewrite Z.opp_involutive, Z.shiftr_div_pow2 by lia. reflexivity.
Qed.

Lemma round53_shape (m e : Z) :
  Float.round53 m e
  = Float.mk (Float.mant (Float.round53 m e)) (Float.expo (Float.round53 m e)).
Proof. destruct (Float.round53 m e). reflexivity. Qed.

(** The heart of the sizing bound: for a total below 2^72 the conversion
    returns at least every integer [n] with [n * 1 MiB <= 1.1 * total]. *)
Lemma float_size_mb_floor (T n : Z) :
  0 <= T < 2 ^ 72 -> 0 <= n -> 10485760 * n <= 11 * T ->
  exists r, float_size_mb T = Ret r /\ n <= r.
Proof.
  intros [HT0 HT] Hn Hle.
  unfold float_size_mb, Float.truediv_mib.
  assert (Hov : Float.overflows (Float.round53 T (-20)) = false).
  { apply round53_no_overflow; try lia.
    destruct (Z_le_gt_dec (Float.excess T) 0); [lia|].
    assert (Float.excess T <= 19) by (apply excess_bound; lia). lia. }
  rewrite Hov. unfold Float.mul, Float.one_point_one.
  cbn [Float.mant Float.expo].
  destruct (Z_le_gt_dec (Float.excess T) 0) as [Hs|Hs].
  - (* the total is a double: the quotient is exact *)
    assert (HT53 : 0 <= T < 2 ^ 53).
    { split; [lia|]. unfold Float.excess in Hs.
      destruct (Z.eq_dec T 0) as [->|]; [reflexivity|].
      apply Z.log2_lt_cancel. rewrite Z.log2_pow2; lia. }
    rewrite (round53_exact T (-20) HT53). cbn [Float.mant Float.expo].
    change (-20 + -52) with (-72).
    set (p := T * 4953959590107546).
    assert (Hp : 0 <= p < 2 ^ 106).
    { subst p. split; [lia|].
      change (2 ^ 106) with (2 ^ 53 * 2 ^ 53).
      assert (4953959590107546 < 2 ^ 53) by (cbv; reflexivity). nia. }
    assert (Hov' : Float.overflows (Float.round53 p (-72)) = false).
    { apply round53_no_overflow; try lia.
      destruct (Z_le_gt_dec (Float.excess p) 0); [lia|].
      assert (Float.excess p <= 53) by (apply excess_bound; lia). lia. }
    rewrite Hov'. apply to_int_round53_ge; [exact Hn| |lia].
    subst p. change (2 ^ 72) with 4722366482869645213696. lia.
  - (* the total is rounded first *)
    assert (Hs19 : Float.excess T <= 19) by (apply excess_bound; lia).
    destruct (round53_near T (-20) ltac:(lia)) as [Hnear [Ha52 Ha53]].
    destruct (round53_mant_ge T (-20) ltac:(lia)) as [_ Hexp].
    destruct (excess_spec T ltac:(lia)) as [HTlo _].
    rewrite Hexp.
    set (s := Float.excess T) in *.
    set (a := Float.mant (Float.round53 T (-20))) in *.
    set (p := a * 4953959590107546).
    assert (HM : 2 ^ 52 <= 4953959590107546 < 2 ^ 53) by (cbv; split; congruence).
    assert (Hp : 2 ^ 104 <= p < 2 ^ 106).
    { subst p. change (2 ^ 104) with (2 ^ 52 * 2 ^ 52).
      change (2 ^ 106) with (2 ^ 53 * 2 ^ 53).
      change (2 ^ 53) with 9007199254740992 in *.
      change (2 ^ 52) with 4503599627370496 in *. nia. }
    assert (Hs2lo : 52 <= Float.excess p).
    { unfold Float.excess.
      assert (104 <= Z.log2 p); [|lia].
      replace 104 with (Z.log2 (2 ^ 104)) by (rewrite Z.log2_pow2; lia).
      apply Z.log2_le_mono. lia. }
    assert (Hs2hi : Float.excess p <= 53) by (apply excess_bound; lia).
    assert (Hov' : Float.overflows (Float.round53 p (-20 + s + -52)) = false)
      by (apply round53_no_overflow; lia).
    rewrite Hov'.
    destruct (round53_near p (-20 + s + -52) ltac:(lia)) as [Hnear2 _].
    destruct (round53_mant_ge p (-20 + s + -52) ltac:(lia)) as [_ Hexp2].
    rewrite (round53_shape p), Hexp2.
    set (s2 := Float.excess p) in *.
    set (c := Float.mant (Float.round53 p (-20 + s + -52))) in *.
    set (k := 72 - s - s2).
    replace (-20 + s + -52 + s2) with (- k) by (subst k; lia).
    rewrite (to_int_scaled c k) by (subst k; lia).
    eexists; split; [reflexivity|].
    assert (HP : 0 < 2 ^ s) by (apply Z.pow_pos_nonneg; lia).
    assert (HQ : 2 ^ 52 <= 2 ^ s2) by (apply Z.pow_le_mono_r; lia).
    assert (HK : 0 < 2 ^ k) by (apply Z.pow_pos_nonneg; subst k; lia).
    assert (H72 : 2 ^ k * 2 ^ s2 * 2 ^ s = 2 ^ 72).
    { rewrite <- !Z.pow_add_r by (subst k; lia). f_equal. subst k. lia. }
    apply Z.div_le_lower_bound; [exact HK|].
    destruct (Z_le_gt_dec (2 ^ k * n) c) as [|Hlt]; [assumption|exfalso].
    set (P := 2 ^ s) in *. set (Q := 2 ^ s2) in *. set (K := 2 ^ k) in *.
    (* c <= K n - 1, so p is below n 2^(72-s) by half a unit *)
    assert (H1 : 2 * p <= 2 * (K * n * Q) - Q) by nia.
    (* times P, and 2^72 = K Q P *)
    assert (H2 : 2 * (p * P) <= 2 * (n * 2 ^ 72) - Q * P).
    { rewrite <- H72.
      replace (n * (K * Q * P)) with (K * n * Q * P) by ring.
      assert (2 * p * P <= (2 * (K * n * Q) - Q) * P)
        by (apply Z.mul_le_mono_nonneg_r; lia).
      lia. }
    (* the rounded total is near the total *)
    assert (H3 : 4953959590107546 * (2 * T - P) <= 2 * (p * P)).
    { subst p.
      replace (2 * (a * 4953959590107546 * P))
        with (4953959590107546 * (2 * (a * P))) by ring.
      apply Z.mul_le_mono_nonneg_l; lia. }
    assert (H4 : 2 ^ 52 * P <= Q * P)
      by (apply Z.mul_le_mono_nonneg_r; lia).
    change (2 ^ 72) with 4722366482869645213696 in H2.
    change (2 ^ 52) with 4503599627370496 in *.
    lia.
Qed.

(** ** The monad and the leaf operations *)

Lemma bind_pair {A B} (t : list event) (a : A) (k : A -> M B) :
  bind (t, Ret a) k = ((t ++ trace (k a))%list, result (k a)).
Proof. unfold bind, trace, result. destruct (k a). reflexivity. Qed.

Lemma bind_after {A B} (t : list event) (a : A) (k : A -> M B) :
  bind (t, Ret a) k = after t (k a).
Proof. apply bind_pair. Qed.

Lemma after_after {A} (t t' : list event) (m : M A) :
  after t (after t' m) = after (t ++ t') m.
Proof. unfold after. cbn. rewrite app_assoc. reflexivity. Qed.

Lemma after_nil {A} (m : M A) : after [] m = m.
Proof. destruct m. reflexivity. Qed.

Lemma pair_eta {A} (m : M A) : m = (trace m, result m).
Proof. destruct m. reflexivity. Qed.

Lemma execute_command_eq (w : World) (cmd : list string) :
  exists output,
    execute_command w cmd = ([Popen cmd], Ret (command_ok w cmd, output)).
Proof.
  unfold command_ok, execute_command.
  destruct (popen w cmd) as [[[rc out] err]|e]; cbn.
  - destruct (rc =? 0); cbn; eauto.
  - eauto.
Qed.

Lemma unmount_eq (w : World) (mp : string) :
  unmount_sparsebundle w mp
  = ([Popen (unmount_command mp)], Ret (command_ok w (unmount_command mp))).
Proof.
  unfold unmount_sparsebundle.
  destruct (execute_command_eq w (unmount_command mp)) as [o ->].
  reflexivity.
Qed.

Lemma mount_eq (w : World) (p : string) :
  mount_sparsebundle w p
  = ([Popen (mount_command p)],
     Ret (if command_ok w (mount_command p)
          then (true, Some mount_point) else (false, None))).
Proof.
  unfold mount_sparsebundle.
  destruct (execute_command_eq w (mount_command p)) as [o ->].
  cbn. destruct (command_ok w (mount_command p)); reflexivity.
Qed.

Lemma create_eq (w : World) (d n : string) (size_mb : Z) :
  let p := join d (n ++ ".sparsebundle") in
  create_sparsebundle w d n size_mb
  = if exists_ w p then ([], Ret (false, p))
    else ([Popen (create_command p n size_mb)],
          Ret (command_ok w (create_command p n size_mb), p)).
Proof.
  intros p. unfold create_sparsebundle. fold p.
  destruct (exists_ w p); [reflexivity|].
  destruct (execute_command_eq w (create_command p n size_mb)) as [o ->].
  reflexivity.
Qed.

(** [copy_with_metadata] never raises, and what it does and returns does
    not depend on the log it is given; it only appends to it. *)
Lemma copy_with_metadata_eq (w : World) (source destination : string)
    (hash_log : list hash_entry) :
  copy_with_metadata w source destination hash_log
  = (item_trace w destination source,
     Ret (item_flag w destination source,
          (hash_log ++ item_entries w destination source)%list)).
Proof.
  unfold item_trace, item_flag, item_entries, copy_with_metadata.
  destruct (isfile w source).
  - destruct (execute_command_eq w (ditto source destination)) as [o ->].
    destruct (command_ok w (ditto source destination)); cbn.
    + destruct (negb _); reflexivity.
    + rewrite app_nil_r. reflexivity.
  - destruct (isdir w source); [|cbn; rewrite app_nil_r; reflexivity].
    destruct (execute_command_eq w
                (ditto source (join destination (basename source)))) as [o ->].
    destruct (makedirs w (join destination (basename source))) as [[]|e]; cbn.
    + destruct (negb _); cbn; rewrite app_nil_r; reflexivity.
    + rewrite app_nil_r. reflexivity.
Qed.

Lemma copy_loop_eq (w : World) (paths : list string) (dir : string) :
  forall (hash_log : list hash_entry) (success : bool),
    copy_loop w paths dir hash_log success
    = (flat_map (item_trace w dir) paths,
       Ret (success && forallb (item_flag w dir) paths,
            (hash_log ++ flat_map (item_entries w dir) paths)%list)).
Proof.
  induction paths as [|p ps IH]; intros hash_log success; cbn [copy_loop].
  - cbn. rewrite andb_true_r, app_nil_r. reflexivity.
  - rewrite copy_with_metadata_eq, bind_pair. cbn beta iota.
    rewrite IH. cbn [trace result fst snd flat_map forallb].
    rewrite <- app_assoc.
    destruct (item_flag w dir p), success; reflexivity.
Qed.

Lemma run_copies_eq (w : World) :
  run_copies w
  = (flat_map (item_trace w files_dir) (run_selection w),
     Ret (copies_ok w, run_hash_log w)).
Proof. unfold run_copies. rewrite copy_loop_eq. reflexivity. Qed.

(** ** The stages of [main] *)

(** What follows the setup in a run that reaches the copy stage. *)
Lemma main_body_reached (w : World) :
  reaches_copy_stage w = true ->
  main_body w
  = bind (setup_trace w, Ret tt)
      (fun _ =>
         '(success, hash_log) <- run_copies w ;;
         create_verification_report w hash_log log_dir (run_bundle w) ;;
         unmounted <- run_unmount w ;;
         if negb unmounted then ret 1
         else if success then ret 0
         else ret 1).
Proof.
  unfold reaches_copy_stage, preconditions_ok, create_ok, mount_ok, setup_ok.
  rewrite !andb_true_iff, negb_true_iff.
  intros [[[[[[[Hlog Hplat] Hsel] Hsize] Hdest] Hcreate] Hmount] [[Hm1 Hc] Hm2]].
  unfold setup_trace, main_body.
  rewrite (pair_eta (log_system_info w)) at 1.
  destruct (result (log_system_info w)) as [[]|e]; [|discriminate].
  rewrite !bind_after. rewrite Hplat. cbn [negb].
  fold (run_selection w).
  destruct (run_selection w) as [|p ps] eqn:Esel; [discriminate|].
  replace (estimate_size_needed (fs w) (p :: ps)) with (run_size w)
    by (unfold run_size; rewrite Esel; reflexivity).
  destruct (run_size w) as [size_needed|e]; [|discriminate].
  unfold lift at 1. rewrite bind_after, after_nil. rewrite Hdest.
  fold (run_name w).
  assert (Hpath : forall b s,
             result (create_sparsebundle w (destination_answer w) (run_name w)
                       size_needed) = Ret (b, s) -> s = run_bundle w).
  { intros b s. rewrite create_eq. cbv zeta. fold (run_bundle w).
    destruct (exists_ w (run_bundle w)); cbn; congruence. }
  rewrite (pair_eta (create_sparsebundle w (destination_answer w) (run_name w)
                       size_needed)) at 1.
  destruct (result (create_sparsebundle w (destination_answer w) (run_name w)
                      size_needed)) as [[success sp]|e] eqn:Ecr; [|discriminate].
  subst success. rewrite (Hpath _ _ eq_refl).
  rewrite bind_after. cbn [negb].
  rewrite mount_eq in Hmount |- *. cbn [result snd] in Hmount.
  destruct (command_ok w (mount_command (run_bundle w))); [|discriminate].
  rewrite bind_after. cbn [negb].
  fold log_dir files_dir.
  destruct (makedirs w log_dir) as [[]|e]; [|discriminate].
  destruct (copy2 w (log_file w) log_dir) as [[]|e]; [|discriminate].
  destruct (makedirs w files_dir) as [[]|e]; [|discriminate].
  unfold emit, lift. rewrite !bind_after, !after_nil.
  rewrite <- Esel. fold (run_copies w) (run_unmount w).
  rewrite !after_after. rewrite <- !app_assoc. reflexivity.
Qed.

Lemma catch_after {A} (t : list event) (m : M A) (h : exn -> M A) :
  catch (after t m) h = after t (catch m h).
Proof.
  destruct m as [t' [a|e]]; unfold after, catch; cbn; [reflexivity|].
  destruct (h e). cbn. rewrite app_assoc. reflexivity.
Qed.

Lemma result_after {A} (t : list event) (m : M A) :
  result (after t m) = result m.
Proof. reflexivity. Qed.

(** A run that does not reach the copy stage ends with status 1. *)
Lemma main_not_reached (w : World) :
  reaches_copy_stage w = false -> result (main w) = Ret 1.
Proof.
  intros H. unfold main, main_body.
  rewrite (pair_eta (log_system_info w)) at 1.
  destruct (result (log_system_info w)) as [[]|e] eqn:Elog; [|reflexivity].
  rewrite bind_after, catch_after, result_after.
  destruct (String.eqb (platform w) "darwin") eqn:Eplat; [|reflexivity].
  cbn [negb]. fold (run_selection w).
  destruct (run_selection w) as [|p ps] eqn:Esel; [reflexivity|].
  replace (estimate_size_needed (fs w) (p :: ps)) with (run_size w)
    by (unfold run_size; rewrite Esel; reflexivity).
  destruct (run_size w) as [size_needed|e] eqn:Esize; [|reflexivity].
  unfold lift at 1. rewrite bind_after, after_nil.
  destruct (String.eqb (destination_answer w) "") eqn:Edest; [reflexivity|].
  fold (run_name w).
  assert (Hpath : forall b s,
             result (create_sparsebundle w (destination_answer w) (run_name w)
                       size_needed) = Ret (b, s) -> s = run_bundle w).
  { intros b s. rewrite create_eq. cbv zeta. fold (run_bundle w).
    destruct (exists_ w (run_bundle w)); cbn; congruence. }
  rewrite (pair_eta (create_sparsebundle w (destination_answer w) (run_name w)
                       size_needed)) at 1.
  destruct (result (create_sparsebundle w (destination_answer w) (run_name w)
                      size_needed)) as [[success sp]|e] eqn:Ecr; [|reflexivity].
  rewrite (Hpath _ _ eq_refl).
  rewrite bind_after, catch_after, result_after.
  destruct success; [|reflexivity]. cbn [negb].
  rewrite mount_eq.
  destruct (command_ok w (mount_command (run_bundle w))) eqn:Emount;
    [|reflexivity].
  rewrite bind_after, catch_after, result_after. cbn [negb].
  fold log_dir files_dir. unfold emit, lift.
  rewrite bind_after, catch_after, result_after.
  destruct (makedirs w log_dir) as [[]|e] eqn:Em1; [|reflexivity].
  rewrite bind_after, after_nil, bind_after, catch_after, result_after.
  destruct (copy2 w (log_file w) log_dir) as [[]|e] eqn:Ec; [|reflexivity].
  rewrite bind_after, after_nil, bind_after, catch_after, result_after.
  destruct (makedirs w files_dir) as [[]|e] eqn:Em2; [|reflexivity].
  exfalso. revert H.
  unfold reaches_copy_stage, preconditions_ok, create_ok, mount_ok, setup_ok.
  rewrite Elog, Eplat, Esel, Esize, Edest, Ecr, mount_eq, Emount, Em1, Ec, Em2.
  cbn. discriminate.
Qed.

(** The trace and the status of a run that reaches the copy stage. *)
Lemma main_reached (w : World) :
  reaches_copy_stage w = true ->
  main w
  = ((setup_trace w
      ++ trace (run_copies w)
      ++ trace (run_report w)
      ++ (if report_returns w then trace (run_unmount w) else []))%list,
     Ret (if run_ok w then 0 else 1)).
Proof.
  intros H. unfold main, run_ok. rewrite H, (main_body_reached w H).
  rewrite bind_after, catch_after.
  rewrite run_copies_eq at 1. rewrite bind_after, catch_after.
  cbn beta iota. fold (run_report w). unfold report_returns.
  rewrite run_copies_eq. cbn [trace fst].
  destruct (run_report w) as [tr [[]|e]]; cbn [returns result snd trace fst].
  - rewrite bind_after, catch_after.
    unfold unmount_ok, run_unmount. rewrite unmount_eq.
    rewrite bind_after. cbn [result snd trace fst].
    unfold after. cbn [result snd trace fst].
    destruct (command_ok w (unmount_command mount_point)), (copies_ok w);
      reflexivity.
  - unfold after. cbn. rewrite !app_nil_r, !andb_false_r. reflexivity.
Qed.

(** [main] always returns, with status 0 or 1. *)
Lemma main_status (w : World) :
  result (main w) = Ret (if run_ok w then 0 else 1).
Proof.
  destruct (reaches_copy_stage w) eqn:H.
  - rewrite (main_reached w H). reflexivity.
  - rewrite (main_not_reached w H). unfold run_ok. rewrite H. reflexivity.
Qed.

(** ** The report step: what it writes *)

Ltac report_simpl :=
  cbn [bind catch emit lift ret raise trace result fst snd app returns andb
       written_plists written_texts forallb neither_copy_nor_unmount
       is_copy_command is_unmount is_hdiutil negb].

Ltac report_cases w output_path :=
  unfold create_verification_report, run_check_output, open_for_write,
    plistlib_dump, queries_ok, files_writable, report_artifacts,
    report_record, answer, plist_path, txt_path, query_events;
  destruct (check_output w ["whoami"]) as [s1|?];
  destruct (check_output w ["hostname"]) as [s2|?];
  destruct (check_output w ["sw_vers"; "-productVersion"]) as [s3|?];
  destruct (open_write w (join output_path "verification_report.plist"))
    as [[]|?];
  destruct (open_write w (join output_path "verification_report.txt"))
    as [[]|?];
  destruct (write_file w (join output_path "verification_report.plist"))
    as [[]|?];
  destruct (write_file w (join output_path "verification_report.txt"))
    as [[]|?];
  report_simpl;
  try match goal with
  | |- context [plist_writable ?r] =>
      let E := fresh "Ew" in
      destruct (plist_writable r) eqn:E;
      [|destruct (all_digests_present (file_hashes r))];
      report_simpl
  end.

Lemma report_complete (w : World) (hash_log : list hash_entry)
    (output_path sp : string) :
  queries_ok w = true ->
  plist_writable (report_record w hash_log sp) = true ->
  files_writable w output_path = true ->
  create_verification_report w hash_log output_path sp
  = ((query_events ++ report_artifacts w hash_log output_path sp)%list, Ret tt).
Proof.
  report_cases w output_path; intros; try discriminate; try congruence;
    reflexivity.
Qed.

(** Whatever the report step writes holds the log it was given. *)
Lemma report_content (w : World) (hash_log : list hash_entry)
    (output_path sp : string) :
  (forall p r,
      In (p, r) (written_plists
                   (trace (create_verification_report w hash_log output_path sp))) ->
      p = plist_path output_path /\ file_hashes r = hash_log)
  /\ (forall p c,
         In (p, c) (written_texts
                      (trace (create_verification_report w hash_log output_path sp))) ->
         p = txt_path output_path
         /\ text_records c = flat_map text_entry hash_log).
Proof.
  report_cases w output_path;
    (split; intros p x Hin; repeat (destruct Hin as [Hin|Hin]; try contradiction);
     inversion Hin; subst; split; reflexivity).
Qed.

(** A log with a missing digest leaves no complete artifact. *)
Lemma report_needs_digests (w : World) (hash_log : list hash_entry)
    (output_path sp : string) :
  all_digests_present hash_log = false ->
  written_plists (trace (create_verification_report w hash_log output_path sp)) = []
  /\ written_texts (trace (create_verification_report w hash_log output_path sp)) = [].
Proof.
  intros Hd.
  report_cases w output_path; try (split; reflexivity);
    unfold plist_writable in Ew; cbn [file_hashes] in Ew;
    rewrite Hd in Ew; discriminate.
Qed.

(** The report step copies nothing and detaches nothing. *)
Lemma report_events (w : World) (hash_log : list hash_entry)
    (output_path sp : string) :
  forallb neither_copy_nor_unmount
    (trace (create_verification_report w hash_log output_path sp)) = true.
Proof.
  report_cases w output_path; reflexivity.
Qed.

(** The report step returns unless one of its system queries raises:
    every error of its writes is caught. *)
Lemma report_returns_queries (w : World) (hash_log : list hash_entry)
    (output_path sp : string) :
  returns (result (create_verification_report w hash_log output_path sp))
  = queries_ok w.
Proof.
  report_cases w output_path; reflexivity.
Qed.

(** ** Container sizing *)

(** C1, as stated, fails: [int(...)] truncates.  One file of 100 MiB and
    one byte gives 110, while [ceil(1.1 * total_bytes / 1 MiB)] is 111. *)
Lemma estimate_size_needed_not_ceiling :
  estimate_size_needed (one_file 104857601) ["/evidence/a.bin"] = Ret 110
  /\ ceil_mb (total_bytes (one_file 104857601) ["/evidence/a.bin"]) = 111.
Proof. split; vm_compute; reflexivity. Qed.

(** Nor does the walk follow a link to a directory: what lies behind one
    is not counted, so the estimate stays at 100 where the files reachable
    through links would need 220. *)
Example linked_directory_not_counted :
  estimate_size_needed behind_link ["/evidence/case"] = Ret 100
  /\ total_size behind_link ["/evidence/case"] = 40%N
  /\ total_bytes behind_link ["/evidence/case"] = 40%N
  /\ floor_mb (total_followed_bytes behind_link ["/evidence/case"]) = 220.
Proof. repeat split; vm_compute; reflexivity. Qed.

(** C1, amended: for every selection whose measured total is below 2^72
    bytes, [estimate_size_needed] returns a value that is at least 100 and
    at least [floor(1.1 * total_bytes / 1 MiB)], where [total_bytes] is the
    sum of the sizes of the regular files reachable under the selected
    paths without going through a symbolic link to a directory met inside
    a selected directory. *)
Theorem estimate_size_needed_floor (fs : string -> node) (paths : list string) :
  (total_size fs paths < 2 ^ 72)%N ->
  exists size_mb,
    estimate_size_needed fs paths = Ret size_mb
    /\ 100 <= size_mb
    /\ floor_mb (total_bytes fs paths) <= size_mb.
Proof.
  intros Hlt.
  pose proof (total_bytes_le_size fs paths) as Hle.
  set (n := floor_mb (total_bytes fs paths)).
  assert (Hn : 0 <= n) by (subst n; unfold floor_mb; apply Z.div_pos; lia).
  assert (H1 : 10485760 * n <= 11 * Z.of_N (total_bytes fs paths))
    by (subst n; unfold floor_mb; apply Z.mul_div_le; lia).
  destruct (float_size_mb_floor (Z.of_N (total_size fs paths)) n) as [r [Hr Hnr]].
  - split; [lia|]. change (2 ^ 72) with (Z.of_N (2 ^ 72)%N). lia.
  - exact Hn.
  - lia.
  - unfold estimate_size_needed. rewrite Hr.
    exists (Z.max r 100). repeat split; lia.
Qed.

Lemma estimate_size_needed_floor_witness :
  exists size_mb,
    estimate_size_needed (one_file 104857601) ["/evidence/a.bin"] = Ret size_mb
    /\ 100 <= size_mb
    /\ floor_mb (total_bytes (one_file 104857601) ["/evidence/a.bin"]) <= size_mb.
Proof.
  apply (estimate_size_needed_floor (one_file 104857601) ["/evidence/a.bin"]).
  vm_compute. reflexivity.
Defined.

(** ** One item of the selection *)

Lemma item_of_file (w : World) (destination source : string) :
  isfile w source = true ->
  item_trace w destination source
  = Popen (ditto source destination)
    :: (if command_ok w (ditto source destination)
        then [ReadFile source; ReadFile (copied_path w destination source)]
        else [])
  /\ item_entries w destination source
     = (if command_ok w (ditto source destination)
        then [entry_for w destination source] else [])
  /\ item_flag w destination source
     = command_ok w (ditto source destination)
       && digests_match (entry_for w destination source).
Proof.
  intros Hf.
  unfold item_trace, item_entries, item_flag, copy_with_metadata.
  rewrite Hf.
  destruct (execute_command_eq w (ditto source destination)) as [o ->].
  unfold digests_match, entry_for, copied_path. cbn [sha256_source sha256_destination].
  destruct (command_ok w (ditto source destination)); cbn;
    [|repeat split; reflexivity].
  destruct (digest_eqb _ _); cbn; repeat split; reflexivity.
Qed.

Lemma item_events (w : World) (destination source : string) :
  forallb neither_write_nor_unmount (item_trace w destination source) = true.
Proof.
  unfold item_trace, copy_with_metadata.
  destruct (isfile w source).
  - destruct (execute_command_eq w (ditto source destination)) as [o ->].
    destruct (command_ok w (ditto source destination)); cbn;
      [destruct (negb _)|]; reflexivity.
  - destruct (isdir w source); [|reflexivity].
    destruct (execute_command_eq w
                (ditto source (join destination (basename source)))) as [o ->].
    destruct (makedirs w (join destination (basename source))) as [[]|e];
      cbn; [destruct (negb _)|]; reflexivity.
Qed.

(** An item that returns success leaves only matching records. *)
Lemma item_flag_matches (w : World) (destination source : string) :
  item_flag w destination source = true ->
  forallb digests_match (item_entries w destination source) = true.
Proof.
  unfold item_flag, item_entries, copy_with_metadata.
  destruct (isfile w source).
  - destruct (execute_command_eq w (ditto source destination)) as [o ->].
    destruct (command_ok w (ditto source destination)); cbn;
      [|discriminate].
    unfold digests_match.
    destruct (digest_eqb _ _) eqn:E; cbn; [|discriminate].
    intros _. rewrite E. reflexivity.
  - destruct (isdir w source); [|reflexivity].
    destruct (execute_command_eq w
                (ditto source (join destination (basename source)))) as [o ->].
    destruct (makedirs w (join destination (basename source))) as [[]|e];
      cbn; [destruct (negb _)|]; reflexivity.
Qed.

Lemma forallb_flat_map {A B} (f : B -> bool) (g : A -> list B) (l : list A) :
  (forall a, In a l -> forallb f (g a) = true) ->
  forallb f (flat_map g l) = true.
Proof.
  induction l as [|a l IH]; intros H; cbn; [reflexivity|].
  rewrite forallb_app, H, IH; [reflexivity| |left; reflexivity].
  intros b Hb. apply H. right. exact Hb.
Qed.

Lemma forallb_weaken {A} (f g : A -> bool) (l : list A) :
  (forall a, f a = true -> g a = true) ->
  forallb f l = true -> forallb g l = true.
Proof.
  intros Hfg. rewrite !forallb_forall. auto.
Qed.

Lemma copies_events (w : World) :
  forallb neither_write_nor_unmount (trace (run_copies w)) = true.
Proof.
  rewrite run_copies_eq. cbn [trace fst].
  apply forallb_flat_map. intros p _. apply item_events.
Qed.

Lemma copies_matches (w : World) :
  copies_ok w = true -> forallb digests_match (run_hash_log w) = true.
Proof.
  unfold copies_ok, run_hash_log. rewrite forallb_forall. intros H.
  apply forallb_flat_map. intros p Hp. apply item_flag_matches. auto.
Qed.

Lemma log_system_info_events (w : World) :
  forallb is_query (trace (log_system_info w)) = true.
Proof.
  unfold log_system_info, run_check_output, emit, lift.
  destruct (check_output w ["whoami"]) as [?|[]]; [|reflexivity ..].
  destruct (check_output w ["hostname"]) as [?|[]]; [|reflexivity ..].
  destruct (check_output w ["sw_vers"; "-productVersion"]) as [?|[]];
    [|reflexivity ..].
  destruct (check_output w ["sw_vers"; "-buildVersion"]) as [?|[]];
    [|reflexivity ..].
  destruct (check_output w ["uname"; "-m"]) as [?|[]]; [|reflexivity ..].
  destruct (check_output w ["uname"; "-r"]) as [?|[]]; reflexivity.
Qed.

Lemma setup_events (w : World) :
  forallb neither_write_nor_unmount (setup_trace w) = true.
Proof.
  unfold setup_trace. rewrite !forallb_app.
  rewrite (forallb_weaken is_query neither_write_nor_unmount _
             ltac:(intros []; cbn; congruence) (log_system_info_events w)).
  rewrite mount_eq. cbn [andb trace fst].
  destruct (run_size w) as [size_needed|e]; [|reflexivity].
  rewrite create_eq. cbv zeta.
  destruct (exists_ w _); reflexivity.
Qed.

(** ** Partial failure *)

Lemma commands_of_files (w : World) (dir : string) (paths : list string) :
  (forall p, In p paths -> isfile w p = true) ->
  commands (flat_map (item_trace w dir) paths)
  = map (fun p => ditto p dir) paths
  /\ map source_path (flat_map (item_entries w dir) paths)
     = filter (fun p => command_ok w (ditto p dir)) paths.
Proof.
  induction paths as [|p ps IH]; intros H; [split; reflexivity|].
  destruct (item_of_file w dir p (H p (or_introl eq_refl))) as [Ht [He _]].
  destruct IH as [IH1 IH2]; [intros q Hq; apply H; right; exact Hq|].
  unfold commands in *. cbn [flat_map map filter].
  rewrite flat_map_app, map_app, Ht, He, IH1, IH2.
  destruct (command_ok w (ditto p dir)); split; reflexivity.
Qed.

Lemma failed_command_fails_copies (w : World) (dir : string) (paths : list string) :
  (forall p, In p paths -> isfile w p = true) ->
  forallb (fun p => command_ok w (ditto p dir)) paths = false ->
  forallb (item_flag w dir) paths = false.
Proof.
  induction paths as [|p ps IH]; intros H; cbn [forallb]; [discriminate|].
  destruct (item_of_file w dir p (H p (or_introl eq_refl))) as [_ [_ ->]].
  destruct (command_ok w (ditto p dir)); [|reflexivity].
  cbn [andb]. intros Hps. rewrite IH; [apply andb_false_r| |exact Hps].
  intros q Hq. apply H. right. exact Hq.
Qed.

(** C2, as stated, fails: with three selected files and the copy of the
    second forced to fail, the log given to the report has two records,
    none for the failed attempt. *)
Lemma failed_copy_leaves_no_record :
  run_selection one_copy_fails = three_files
  /\ map (fun pr => map source_path (file_hashes (snd pr)))
       (written_plists (trace (main one_copy_fails)))
     = [["/evidence/a.txt"; "/evidence/c.txt"]]
  /\ result (main one_copy_fails) = Ret 1.
Proof. repeat split; vm_compute; reflexivity. Qed.

(** C2, amended: in every run that reaches the copy stage with a selection
    of regular files of which some fail to copy, the copy command is still
    run for every selected file, in order; the hash log given to the report
    holds one CopyRecord per file whose copy command succeeded, in
    selection order, and none for a failed attempt; and the process exits
    with status 1. *)
Theorem partial_copy_failure (w : World) :
  reaches_copy_stage w = true ->
  (forall p, In p (run_selection w) -> isfile w p = true) ->
  forallb (fun p => command_ok w (ditto p files_dir)) (run_selection w) = false ->
  commands (trace (run_copies w))
  = map (fun p => ditto p files_dir) (run_selection w)
  /\ (exists before rest,
         trace (main w)
         = (before
            ++ trace (create_verification_report w (run_hash_log w) log_dir
                        (run_bundle w))
            ++ rest)%list)
  /\ map source_path (run_hash_log w)
     = filter (fun p => command_ok w (ditto p files_dir)) (run_selection w)
  /\ result (main w) = Ret 1.
Proof.
  intros Hreach Hfiles Hfail.
  destruct (commands_of_files w files_dir (run_selection w) Hfiles) as [Hc Hs].
  repeat split.
  - rewrite run_copies_eq. exact Hc.
  - rewrite (main_reached w Hreach). cbn [trace fst].
    exists (setup_trace w ++ trace (run_copies w))%list.
    exists (if report_returns w then trace (run_unmount w) else []).
    unfold run_report. rewrite <- !app_assoc. reflexivity.
  - exact Hs.
  - rewrite main_status. unfold run_ok, copies_ok.
    rewrite (failed_command_fails_copies w files_dir _ Hfiles Hfail).
    rewrite andb_false_r. reflexivity.
Qed.

Lemma partial_copy_failure_witness :
  commands (trace (run_copies one_copy_fails))
  = map (fun p => ditto p files_dir) (run_selection one_copy_fails)
  /\ (exists before rest,
         trace (main one_copy_fails)
         = (before
            ++ trace (create_verification_report one_copy_fails
                        (run_hash_log one_copy_fails) log_dir
                        (run_bundle one_copy_fails))
            ++ rest)%list)
  /\ map source_path (run_hash_log one_copy_fails)
     = filter (fun p => command_ok one_copy_fails (ditto p files_dir))
         (run_selection one_copy_fails)
  /\ result (main one_copy_fails) = Ret 1.
Proof.
  apply (partial_copy_failure one_copy_fails).
  - vm_compute. reflexivity.
  - intros p Hp. vm_compute in Hp.
    destruct Hp as [<-|[<-|[<-|[]]]]; vm_compute; reflexivity.
  - vm_compute. reflexivity.
Defined.

(** ** The exit status *)

(** C3, as stated, fails: when the report files cannot be opened the
    report step writes nothing, and the run still ends with status 0. *)
Lemma unwritten_report_exits_zero :
  open_write report_unwritable (plist_path log_dir) = Raise OSError
  /\ filter is_report_write (trace (main report_unwritable)) = []
  /\ result (main report_unwritable) = Ret 0.
Proof. repeat split; vm_compute; reflexivity. Qed.

(** C3, amended: [main] always returns, with status 0 or 1.  The status is
    1 whenever the selection is empty, the container is not created or not
    mounted, some call of [copy_with_metadata] returns failure, or the
    unmount fails; the report step bears on the status only through its
    system queries, and a failure to write the report, which
    [create_verification_report] catches, does not change it.  The
    status is 0 only when the run reached the copy stage, every call of
    [copy_with_metadata] returned success, the report step returned and the
    unmount succeeded; every recorded CopyRecord then has equal digests. *)
Theorem exit_status (w : World) :
  result (main w) = Ret (if run_ok w then 0 else 1)
  /\ report_returns w = queries_ok w
  /\ (run_selection w = []
      \/ create_ok w = false
      \/ mount_ok w = false
      \/ copies_ok w = false
      \/ unmount_ok w = false ->
      result (main w) = Ret 1)
  /\ (result (main w) = Ret 0 ->
      reaches_copy_stage w = true
      /\ copies_ok w = true
      /\ report_returns w = true
      /\ unmount_ok w = true
      /\ forallb digests_match (run_hash_log w) = true).
Proof.
  pose proof (main_status w) as Hs. split; [exact Hs|].
  split; [apply report_returns_queries|]. split.
  - intros H. rewrite Hs.
    unfold run_ok, reaches_copy_stage, preconditions_ok.
    destruct H as [ -> | [ -> | [ -> | [ -> | -> ] ] ] ];
      rewrite ?andb_false_r; reflexivity.
  - rewrite Hs. destruct (run_ok w) eqn:E; [|discriminate]. intros _.
    unfold run_ok in E. rewrite !andb_true_iff in E.
    destruct E as [[[Hr Hc] Hrep] Hu].
    repeat split; try assumption. apply copies_matches. exact Hc.
Qed.

Lemma exit_status_witness :
  result (main clean_world) = Ret 0
  /\ forallb digests_match (run_hash_log clean_world) = true
  /\ result (main nothing_selected) = Ret 1.
Proof.
  destruct (exit_status clean_world) as [H0 [_ [_ Honly]]].
  destruct (exit_status nothing_selected) as [_ [_ [Hfail _]]].
  assert (Hz : result (main clean_world) = Ret 0)
    by (rewrite H0; vm_compute; reflexivity).
  split; [exact Hz|]. split.
  - apply (Honly Hz).
  - apply Hfail. left. vm_compute. reflexivity.
Defined.

(** ** Hashing failures *)

(** C4: when hashing fails for both the source and the copy, the item is
    recorded with two equal (absent) digests and reported as successful,
    and the text rendering of its record reads [Match: True].  The text
    report is nevertheless never written for a log that holds this record:
    the structured dump raises on the absent digests, and the handler of
    the report step skips the text version. *)
Theorem double_hash_failure (w : World) (source destination : string)
    (hash_log : list hash_entry) :
  isfile w source = true ->
  command_ok w (ditto source destination) = true ->
  read_hash w source = None ->
  read_hash w (copied_path w destination source) = None ->
  let entry := entry_for w destination source in
  result (copy_with_metadata w source destination hash_log)
  = Ret (true, (hash_log ++ [entry])%list)
  /\ digests_match entry = true
  /\ In ("Match: True" ++ nl) (text_entry entry)
  /\ forall output_path sp,
      written_texts
        (trace (create_verification_report w (hash_log ++ [entry])
                  output_path sp)) = [].
Proof.
  intros Hf Hc Hs Hd entry.
  destruct (item_of_file w destination source Hf) as [_ [He Hflag]].
  assert (Hm : digests_match entry = true).
  { unfold digests_match, entry, entry_for. cbn. rewrite Hs, Hd. reflexivity. }
  repeat split.
  - rewrite copy_with_metadata_eq. cbn [result snd].
    rewrite He, Hflag, Hc. fold entry. rewrite Hm. reflexivity.
  - exact Hm.
  - unfold text_entry. fold (digests_match entry). rewrite Hm.
    cbn [str_bool In]. do 4 right. left. reflexivity.
  - intros output_path sp. apply report_needs_digests.
    unfold all_digests_present. rewrite forallb_app. cbn [forallb].
    unfold digests_present, entry, entry_for.
    cbn [sha256_source sha256_destination].
    rewrite Hs. apply andb_false_r.
Qed.

Lemma double_hash_failure_witness :
  let entry := entry_for hashing_fails files_dir "/evidence/a.txt" in
  result (copy_with_metadata hashing_fails "/evidence/a.txt" files_dir [])
  = Ret (true, [entry])
  /\ digests_match entry = true
  /\ In ("Match: True" ++ nl) (text_entry entry)
  /\ forall output_path sp,
      written_texts
        (trace (create_verification_report hashing_fails [entry]
                  output_path sp)) = [].
Proof.
  apply (double_hash_failure hashing_fails "/evidence/a.txt" files_dir []);
    vm_compute; reflexivity.
Defined.

(** The whole run on that input: status 0, and no report in the container. *)
Example hashing_fails_run :
  result (main hashing_fails) = Ret 0
  /\ written_plists (trace (main hashing_fails)) = []
  /\ written_texts (trace (main hashing_fails)) = [].
Proof. repeat split; vm_compute; reflexivity. Qed.

(** ** Integrity failures *)

(** C5: whenever the digest of a copied file differs from the digest of
    its source, [copy_with_metadata] appends the CopyRecord and returns
    failure; every selected item is still processed; and the run ends with
    status 1. *)
Theorem digest_mismatch_fails_run (w : World) (source : string) :
  reaches_copy_stage w = true ->
  In source (run_selection w) ->
  isfile w source = true ->
  command_ok w (ditto source files_dir) = true ->
  digests_match (entry_for w files_dir source) = false ->
  (forall hash_log,
      copy_with_metadata w source files_dir hash_log
      = ([Popen (ditto source files_dir); ReadFile source;
          ReadFile (copied_path w files_dir source)],
         Ret (false, (hash_log ++ [entry_for w files_dir source])%list)))
  /\ (exists rest,
         trace (main w)
         = (setup_trace w
            ++ flat_map (fun p => trace (copy_with_metadata w p files_dir []))
                 (run_selection w)
            ++ rest)%list)
  /\ result (main w) = Ret 1.
Proof.
  intros Hreach Hin Hf Hc Hm.
  destruct (item_of_file w files_dir source Hf) as [Ht [He Hflag]].
  rewrite Hc in Ht, He, Hflag. rewrite Hm in Hflag. cbn [andb] in Hflag.
  repeat split.
  - intros hash_log. rewrite copy_with_metadata_eq, Ht, He, Hflag. reflexivity.
  - rewrite (main_reached w Hreach), run_copies_eq. cbn [trace fst].
    eexists. reflexivity.
  - rewrite main_status. unfold run_ok, copies_ok.
    assert (forallb (item_flag w files_dir) (run_selection w) = false) as ->.
    { apply not_true_is_false. rewrite forallb_forall. intros H.
      specialize (H source Hin). congruence. }
    rewrite andb_false_r. reflexivity.
Qed.

Lemma digest_mismatch_fails_run_witness :
  (forall hash_log,
      copy_with_metadata one_copy_corrupt "/evidence/b.txt" files_dir hash_log
      = ([Popen (ditto "/evidence/b.txt" files_dir); ReadFile "/evidence/b.txt";
          ReadFile (copied_path one_copy_corrupt files_dir "/evidence/b.txt")],
         Ret (false,
              (hash_log
               ++ [entry_for one_copy_corrupt files_dir "/evidence/b.txt"])%list)))
  /\ (exists rest,
         trace (main one_copy_corrupt)
         = (setup_trace one_copy_corrupt
            ++ flat_map
                 (fun p => trace (copy_with_metadata one_copy_corrupt p files_dir []))
                 (run_selection one_copy_corrupt)
            ++ rest)%list)
  /\ result (main one_copy_corrupt) = Ret 1.
Proof.
  apply (digest_mismatch_fails_run one_copy_corrupt "/evidence/b.txt").
  - vm_compute. reflexivity.
  - right. left. reflexivity.
  - vm_compute. reflexivity.
  - vm_compute. reflexivity.
  - vm_compute. reflexivity.
Defined.

(** ** The report step in the run *)

(** C6, as stated, fails: a run reaches the copy stage and writes no
    report when the report files cannot be opened (the error is caught and
    logged), and none either when a recorded digest is absent. *)
Lemma report_not_always_written :
  (reaches_copy_stage report_unwritable = true
   /\ filter is_report_write (trace (main report_unwritable)) = [])
  /\ (reaches_copy_stage hashing_fails = true
      /\ written_plists (trace (main hashing_fails)) = []
      /\ written_texts (trace (main hashing_fails)) = []).
Proof. repeat split; vm_compute; reflexivity. Qed.

(** C6, amended: in every run that reaches the copy stage the report step
    is run exactly once, after the copy attempt of every selected item,
    whatever their outcomes, and before the unmount; nothing is written
    and nothing detached before it, nothing copied after it.  When its
    system queries answer, the structured dump accepts the report (every
    recorded digest is present and no string of it holds a control
    character) and both report files can be opened and written, it
    writes both artifacts in full, and the unmount follows. *)
Theorem report_between_copies_and_unmount (w : World) :
  reaches_copy_stage w = true ->
  exists last,
    trace (main w)
    = (setup_trace w ++ trace (run_copies w) ++ trace (run_report w) ++ last)%list
    /\ trace (run_copies w)
       = flat_map (fun p => trace (copy_with_metadata w p files_dir []))
           (run_selection w)
    /\ (last = [] \/ last = [Popen (unmount_command mount_point)])
    /\ forallb neither_write_nor_unmount (setup_trace w ++ trace (run_copies w))
       = true
    /\ forallb neither_copy_nor_unmount (trace (run_report w)) = true
    /\ forallb neither_copy_nor_write last = true
    /\ (queries_ok w = true ->
        plist_writable (report_record w (run_hash_log w) (run_bundle w)) = true ->
        files_writable w log_dir = true ->
        trace (run_report w)
        = (query_events
           ++ report_artifacts w (run_hash_log w) log_dir (run_bundle w))%list
        /\ last = [Popen (unmount_command mount_point)]).
Proof.
  intros Hreach.
  exists (if report_returns w then trace (run_unmount w) else []).
  split; [rewrite (main_reached w Hreach); reflexivity|].
  split; [rewrite run_copies_eq; reflexivity|].
  unfold run_unmount. rewrite unmount_eq. cbn [trace fst].
  split; [destruct (report_returns w); auto|].
  split; [rewrite forallb_app, setup_events, copies_events; reflexivity|].
  split; [apply report_events|].
  split; [destruct (report_returns w); reflexivity|].
  intros Hq Hd Hf.
  unfold report_returns, run_report.
  rewrite (report_complete w _ _ _ Hq Hd Hf).
  split; reflexivity.
Qed.

Lemma report_between_copies_and_unmount_witness :
  exists last,
    trace (main clean_world)
    = (setup_trace clean_world ++ trace (run_copies clean_world)
       ++ trace (run_report clean_world) ++ last)%list
    /\ trace (run_report clean_world)
       = (query_events
          ++ report_artifacts clean_world (run_hash_log clean_world) log_dir
               (run_bundle clean_world))%list
    /\ last = [Popen (unmount_command mount_point)].
Proof.
  destruct (report_between_copies_and_unmount clean_world)
    as [last [Ht [_ [_ [_ [_ [_ Hw]]]]]]].
  - vm_compute. reflexivity.
  - exists last. split; [exact Ht|].
    apply Hw; vm_compute; reflexivity.
Defined.

(** ** Items that are neither files nor directories *)

(** C7: for a source path that is neither an existing regular file nor an
    existing directory, [copy_with_metadata] returns success, performs no
    action at all and leaves the hash log as it was. *)
Theorem copy_of_other_path (w : World) (source destination : string)
    (hash_log : list hash_entry) :
  isfile w source = false ->
  isdir w source = false ->
  copy_with_metadata w source destination hash_log = ([], Ret (true, hash_log)).
Proof.
  intros Hf Hd. unfold copy_with_metadata. rewrite Hf, Hd. reflexivity.
Qed.

Lemma copy_of_other_path_witness :
  copy_with_metadata clean_world "/evidence/deleted.txt" files_dir []
  = ([], Ret (true, [])).
Proof.
  apply (copy_of_other_path clean_world "/evidence/deleted.txt" files_dir []);
    vm_compute; reflexivity.
Defined.

(** ** An existing container *)

(** C8: for every destination directory, name and size, if something
    already exists at the derived path, [create_sparsebundle] returns
    failure with that path and performs no action: the creation command is
    not run and the existing container is not touched. *)
Theorem create_refuses_existing (w : World) (destination_path name : string)
    (size_mb : Z) :
  exists_ w (join destination_path (name ++ ".sparsebundle")) = true ->
  create_sparsebundle w destination_path name size_mb
  = ([], Ret (false, join destination_path (name ++ ".sparsebundle"))).
Proof.
  intros H. unfold create_sparsebundle. rewrite H. reflexivity.
Qed.

Lemma create_refuses_existing_witness :
  create_sparsebundle bundle_exists "/cases" "ForensicData_20240101_120000" 100
  = ([], Ret (false, "/cases/ForensicData_20240101_120000.sparsebundle")).
Proof.
  apply (create_refuses_existing bundle_exists "/cases"
           "ForensicData_20240101_120000" 100).
  vm_compute. reflexivity.
Defined.

(** The run on that world stops there: status 1, nothing attached. *)
Example bundle_exists_run :
  result (main bundle_exists) = Ret 1
  /\ filter touches_container (trace (main bundle_exists)) = [].
Proof. split; vm_compute; reflexivity. Qed.

(** ** An empty selection *)

(** C9: when the selection is empty, [main] exits with status 1 before the
    container-creation stage: the run performs only the system queries of
    [log_system_info], so no container is created, mounted or written to. *)
Theorem empty_selection_exits (w : World) :
  run_selection w = [] ->
  result (main w) = Ret 1
  /\ trace (main w) = trace (log_system_info w)
  /\ filter touches_container (trace (main w)) = [].
Proof.
  intros Hsel.
  assert (Hmain : main w = (trace (log_system_info w), Ret 1)).
  { unfold main, main_body. fold (run_selection w). rewrite Hsel.
    rewrite (pair_eta (log_system_info w)) at 1.
    destruct (result (log_system_info w)) as [[]|e];
      [|cbn [bind catch ret]; rewrite app_nil_r; reflexivity].
    rewrite bind_after, catch_after.
    destruct (negb _); unfold after; cbn; rewrite app_nil_r; reflexivity. }
  rewrite Hmain. cbn [result snd trace fst]. repeat split.
  clear Hmain. pose proof (log_system_info_events w) as H.
  induction (trace (log_system_info w)) as [|e t IH]; [reflexivity|].
  cbn [forallb] in H. apply andb_true_iff in H. destruct H as [He Ht].
  destruct e; try discriminate. cbn. apply IH. exact Ht.
Qed.

Lemma empty_selection_exits_witness :
  result (main nothing_selected) = Ret 1
  /\ trace (main nothing_selected) = trace (log_system_info nothing_selected)
  /\ filter touches_container (trace (main nothing_selected)) = [].
Proof.
  apply (empty_selection_exits nothing_selected). vm_compute. reflexivity.
Defined.

(** ** Writing the report twice *)

(** C10: two report steps given the same hash log, at any two times and
    with any two answers of the system, write reports with the same
    CopyRecord content.  Whatever either of them writes holds it: a
    structured report holds exactly the records of the log, and a text
    report, after its header, exactly the six lines of each record in
    order, source path, destination path, both digests, whether they are
    equal, and the record's own timestamp.  When both steps can write,
    each writes one structured and one text report, to the same two paths;
    the two reports agree on the records, and when the system answers the
    same both times they differ in nothing but the run timestamp. *)
Theorem report_records_idempotent (w1 w2 : World) (hash_log : list hash_entry)
    (output_path sp : string) :
  let first := trace (create_verification_report w1 hash_log output_path sp) in
  let second := trace (create_verification_report w2 hash_log output_path sp) in
  let records :=
    flat_map
      (fun e =>
         [ "Source: " ++ source_path e ++ nl;
           "Destination: " ++ destination_path e ++ nl;
           "Source SHA256: " ++ str_digest (sha256_source e) ++ nl;
           "Destination SHA256: " ++ str_digest (sha256_destination e) ++ nl;
           (if digest_eqb (sha256_source e) (sha256_destination e)
            then "Match: True" else "Match: False") ++ nl;
           "Timestamp: " ++ timestamp e ++ nl ++ nl ])
      hash_log in
  (forall p r,
      In (p, r) (written_plists first ++ written_plists second) ->
      p = join output_path "verification_report.plist"
      /\ file_hashes r = hash_log)
  /\ (forall p c,
         In (p, c) (written_texts first ++ written_texts second) ->
         p = join output_path "verification_report.txt"
         /\ text_records c = records)
  /\ (report_writable w1 hash_log output_path sp = true ->
      report_writable w2 hash_log output_path sp = true ->
      exists r1 r2 c1 c2,
        written_plists first
        = [(join output_path "verification_report.plist", r1)]
        /\ written_plists second
           = [(join output_path "verification_report.plist", r2)]
        /\ written_texts first
           = [(join output_path "verification_report.txt", c1)]
        /\ written_texts second
           = [(join output_path "verification_report.txt", c2)]
        /\ map record_content (file_hashes r1)
           = map record_content (file_hashes r2)
        /\ text_records c1 = text_records c2
        /\ sparsebundle_path r1 = sparsebundle_path r2
        /\ tool_version r1 = tool_version r2
        /\ ((forall query, answer w1 query = answer w2 query) ->
            report_system_info r1 = report_system_info r2
            /\ firstn 2 c1 = firstn 2 c2
            /\ skipn 3 c1 = skipn 3 c2)).
Proof.
  intros first second records.
  destruct (report_content w1 hash_log output_path sp) as [Hp1 Ht1].
  destruct (report_content w2 hash_log output_path sp) as [Hp2 Ht2].
  assert (Hrec : flat_map text_entry hash_log = records).
  { subst records. apply flat_map_ext. intros e. unfold text_entry, str_bool.
    destruct (digest_eqb (sha256_source e) (sha256_destination e));
      reflexivity. }
  split; [|split].
  - intros p r Hin. apply in_app_or in Hin.
    destruct Hin as [Hin|Hin]; [apply (Hp1 p r Hin) | apply (Hp2 p r Hin)].
  - intros p c Hin. rewrite <- Hrec. apply in_app_or in Hin.
    destruct Hin as [Hin|Hin]; [apply (Ht1 p c Hin) | apply (Ht2 p c Hin)].
  - unfold report_writable. intros H1 H2.
    apply andb_prop in H1. destruct H1 as [H1 Hf1].
    apply andb_prop in H1. destruct H1 as [Hq1 Hw1].
    apply andb_prop in H2. destruct H2 as [H2 Hf2].
    apply andb_prop in H2. destruct H2 as [Hq2 Hw2].
    subst first second.
    rewrite (report_complete w1 hash_log output_path sp Hq1 Hw1 Hf1).
    rewrite (report_complete w2 hash_log output_path sp Hq2 Hw2 Hf2).
    exists (report_record w1 hash_log sp), (report_record w2 hash_log sp),
      (text_report (report_record w1 hash_log sp) hash_log),
      (text_report (report_record w2 hash_log sp) hash_log).
    repeat (split; [reflexivity|]).
    intros Hanswer. unfold text_report, text_header, report_record.
    cbn [report_system_info user hostname macos_version sparsebundle_path
         tool_version report_timestamp firstn skipn app].
    rewrite !Hanswer. repeat split; reflexivity.
Qed.

Lemma report_records_idempotent_witness :
  let hash_log := run_hash_log clean_world in
  let first :=
    trace (create_verification_report clean_world hash_log log_dir "/cases/x") in
  let second :=
    trace (create_verification_report clean_world_later hash_log log_dir
             "/cases/x") in
  exists r1 r2 c1 c2,
    written_plists first = [(join log_dir "verification_report.plist", r1)]
    /\ written_plists second = [(join log_dir "verification_report.plist", r2)]
    /\ written_texts first = [(join log_dir "verification_report.txt", c1)]
    /\ written_texts second = [(join log_dir "verification_report.txt", c2)]
    /\ map record_content (file_hashes r1) = map record_content (file_hashes r2)
    /\ text_records c1 = text_records c2
    /\ sparsebundle_path r1 = sparsebundle_path r2
    /\ tool_version r1 = tool_version r2
    /\ ((forall query, answer clean_world query = answer clean_world_later query) ->
        report_system_info r1 = report_system_info r2
        /\ firstn 2 c1 = firstn 2 c2
        /\ skipn 3 c1 = skipn 3 c2).
Proof.
  intros hash_log first second.
  apply (report_records_idempotent clean_world clean_world_later hash_log
           log_dir "/cases/x");
    vm_compute; reflexivity.
Defined.

(** Two such reports, a day apart: the same records under other headers. *)
Example report_twice :
  let hash_log := run_hash_log clean_world in
  let first :=
    trace (create_verification_report clean_world hash_log log_dir "/cases/x") in
  let second :=
    trace (create_verification_report clean_world_later hash_log log_dir
             "/cases/x") in
  List.length (written_plists first) = 1%nat
  /\ List.length (written_texts first) = 1%nat
  /\ map (fun a => text_records (snd a)) (written_texts first)
     = map (fun a => text_records (snd a)) (written_texts second)
  /\ map (fun a => file_hashes (snd a)) (written_plists first)
     = map (fun a => file_hashes (snd a)) (written_plists second)
  /\ written_texts first <> written_texts second.
Proof.
  cbv zeta. repeat split; try (vm_compute; reflexivity).
  vm_compute. discriminate.
Qed.

(** ** Every run, stage by stage *)

Lemma main_trace (w : World) : trace (main w) = staged_trace w.
Proof.
  destruct (reaches_copy_stage w) eqn:H.
  - rewrite (main_reached w H). cbn [trace fst].
    unfold staged_trace, mounted_trace, setup_trace, create_trace.
    unfold reaches_copy_stage, setup_ok in H.
    rewrite !andb_true_iff in H.
    destruct H as [[[-> ->] ->] [[-> ->] ->]].
    rewrite <- !app_assoc. reflexivity.
  - unfold staged_trace, mounted_trace, create_trace.
    unfold main, main_body, preconditions_ok, create_ok, mount_ok.
    rewrite (pair_eta (log_system_info w)) at 1.
    destruct (result (log_system_info w)) as [[]|e] eqn:Elog;
      [|cbn [bind catch ret trace fst returns andb]; reflexivity].
    rewrite bind_after, catch_after. cbn [trace after fst returns andb].
    f_equal.
    destruct (String.eqb (platform w) "darwin") eqn:Eplat; [|reflexivity].
    cbn [negb andb]. fold (run_selection w).
    destruct (run_selection w) as [|p ps] eqn:Esel; [reflexivity|].
    replace (estimate_size_needed (fs w) (p :: ps)) with (run_size w)
      by (unfold run_size; rewrite Esel; reflexivity).
    destruct (run_size w) as [size_needed|e] eqn:Esize; [|reflexivity].
    unfold lift at 1. rewrite bind_after, after_nil.
    cbn [returns andb].
    destruct (String.eqb (destination_answer w) "") eqn:Edest; [reflexivity|].
    cbn [negb]. fold (run_name w).
    assert (Hpath : forall b s,
               result (create_sparsebundle w (destination_answer w) (run_name w)
                         size_needed) = Ret (b, s) -> s = run_bundle w).
    { intros b s. rewrite create_eq. cbv zeta. fold (run_bundle w).
      destruct (exists_ w (run_bundle w)); cbn; congruence. }
    rewrite (pair_eta (create_sparsebundle w (destination_answer w) (run_name w)
                         size_needed)) at 1.
    destruct (result (create_sparsebundle w (destination_answer w) (run_name w)
                        size_needed)) as [[success sp]|e] eqn:Ecr;
      [|cbn [bind catch ret trace fst]; rewrite !app_nil_r; reflexivity].
    rewrite (Hpath _ _ eq_refl).
    rewrite bind_after, catch_after. cbn [trace after fst]. f_equal.
    destruct success; [|reflexivity]. cbn [negb].
    rewrite mount_eq. cbn [result snd trace fst].
    rewrite bind_after, catch_after. cbn [trace after fst]. f_equal.
    destruct (command_ok w (mount_command (run_bundle w))) eqn:Emount;
      [|reflexivity].
    cbn [negb]. fold log_dir files_dir. unfold emit, lift.
    rewrite bind_after, catch_after. cbn [trace after fst app]. f_equal.
    destruct (makedirs w log_dir) as [[]|e] eqn:Em1; [|reflexivity].
    rewrite bind_after, after_nil, bind_after, catch_after.
    cbn [trace after fst app returns]. f_equal.
    destruct (copy2 w (log_file w) log_dir) as [[]|e] eqn:Ec; [|reflexivity].
    rewrite bind_after, after_nil, bind_after, catch_after.
    cbn [trace after fst app returns]. f_equal.
    destruct (makedirs w files_dir) as [[]|e] eqn:Em2; [|reflexivity].
    exfalso. revert H.
    unfold reaches_copy_stage, preconditions_ok, create_ok, mount_ok, setup_ok.
    rewrite Elog, Eplat, Esel, Esize, Edest, Ecr, mount_eq, Emount, Em1, Ec, Em2.
    cbn. discriminate.
Qed.

(** ** Kinds of actions *)

Lemma filter_none {A} (p q : A -> bool) (t : list A) :
  forallb q t = true ->
  (forall a, q a = true -> p a = false) ->
  filter p t = [].
Proof.
  intros Hq Hpq. induction t as [|a t IH]; [reflexivity|].
  cbn [forallb] in Hq. apply andb_true_iff in Hq. destruct Hq as [Ha Ht].
  cbn [filter]. rewrite (Hpq a Ha). apply IH. exact Ht.
Qed.

Lemma filter_head {A} (p : A -> bool) (a : A) (t : list A) :
  filter p (a :: t) = ((if p a then [a] else []) ++ filter p t)%list.
Proof. cbn [filter]. destruct (p a); reflexivity. Qed.

Lemma item_kind (w : World) (destination source : string) :
  forallb is_item_event (item_trace w destination source) = true.
Proof.
  unfold item_trace, copy_with_metadata.
  destruct (isfile w source).
  - destruct (execute_command_eq w (ditto source destination)) as [o ->].
    destruct (command_ok w (ditto source destination)); cbn;
      [destruct (negb _)|]; reflexivity.
  - destruct (isdir w source); [|reflexivity].
    destruct (execute_command_eq w
                (ditto source (join destination (basename source)))) as [o ->].
    destruct (makedirs w (join destination (basename source))) as [[]|e];
      cbn; [destruct (negb _)|]; reflexivity.
Qed.

Lemma copies_kind (w : World) :
  forallb is_item_event (trace (run_copies w)) = true.
Proof.
  rewrite run_copies_eq. cbn [trace fst].
  apply forallb_flat_map. intros p _. apply item_kind.
Qed.

Lemma report_kind (w : World) (hash_log : list hash_entry)
    (output_path sp : string) :
  forallb is_report_event
    (trace (create_verification_report w hash_log output_path sp)) = true.
Proof.
  report_cases w output_path; reflexivity.
Qed.

Lemma create_trace_eq (w : World) :
  create_trace w
  = match run_size w with
    | Ret size_needed =>
        if exists_ w (run_bundle w) then []
        else [Popen (create_command (run_bundle w) (run_name w) size_needed)]
    | Raise _ => []
    end.
Proof.
  unfold create_trace. destruct (run_size w) as [size_needed|e]; [|reflexivity].
  rewrite create_eq. cbv zeta. fold (run_bundle w).
  destruct (exists_ w (run_bundle w)); reflexivity.
Qed.

Lemma create_ok_eq (w : World) :
  create_ok w
  = match run_size w with
    | Ret size_needed =>
        negb (exists_ w (run_bundle w))
        && command_ok w (create_command (run_bundle w) (run_name w) size_needed)
    | Raise _ => false
    end.
Proof.
  unfold create_ok. destruct (run_size w) as [size_needed|e]; [|reflexivity].
  rewrite create_eq. cbv zeta. fold (run_bundle w).
  destruct (exists_ w (run_bundle w)); reflexivity.
Qed.

Lemma item_event_not_hdiutil (verb : string) (e : event) :
  is_item_event e = true -> is_hdiutil verb e = false.
Proof.
  destruct e as [?|[|c [|v rest]]|?|?|? ?|?|? ?]; cbn;
    try reflexivity; try discriminate.
  intros H. apply String.eqb_eq in H. subst c. reflexivity.
Qed.

Lemma query_not_hdiutil (verb : string) (e : event) :
  is_query e = true -> is_hdiutil verb e = false.
Proof. destruct e; cbn; congruence. Qed.

Lemma report_event_not_hdiutil (verb : string) (e : event) :
  is_report_event e = true -> is_hdiutil verb e = false.
Proof. destruct e; cbn; congruence. Qed.

(** No [hdiutil] command comes from the queries, the copies or the report. *)
Ltac no_hdiutil verb :=
  rewrite ?filter_app;
  rewrite ?(filter_none (is_hdiutil verb) is_query _ (log_system_info_events _)
             (query_not_hdiutil verb));
  rewrite ?(filter_none (is_hdiutil verb) is_item_event _ (copies_kind _)
             (item_event_not_hdiutil verb));
  rewrite ?(filter_none (is_hdiutil verb) is_report_event _
             (report_kind _ _ _ _) (report_event_not_hdiutil verb)).

(** ** The container commands of a run *)

(** X1: a run issues at most one creation command: for an encrypted
    (AES-256) HFS+ sparse bundle of the estimated size, named after the
    run, at the derived path; and it issues it exactly when the
    preconditions hold and nothing exists at that path. *)
Theorem creation_command (w : World) :
  filter is_create (trace (main w))
  = match run_size w with
    | Ret size_needed =>
        if preconditions_ok w && negb (exists_ w (run_bundle w))
        then [Popen ["hdiutil"; "create";
                     "-size"; str_int size_needed ++ "m";
                     "-fs"; "HFS+";
                     "-volname"; run_name w;
                     "-type"; "SPARSEBUNDLE";
                     "-encryption"; "AES-256";
                     run_bundle w]]
        else []
    | Raise _ => []
    end.
Proof.
  rewrite main_trace. unfold staged_trace, mounted_trace, is_create.
  assert (Hpre : preconditions_ok w = true -> exists s, run_size w = Ret s).
  { unfold preconditions_ok. rewrite !andb_true_iff.
    intros [[_ H] _]. destruct (run_size w); [eauto|discriminate]. }
  destruct (preconditions_ok w).
  - destruct (Hpre eq_refl) as [s Hs].
    rewrite create_trace_eq, mount_eq, Hs. unfold run_report, run_unmount.
    rewrite unmount_eq. cbn [trace fst andb].
    destruct (exists_ w (run_bundle w)), (create_ok w), (mount_ok w),
      (returns (makedirs w log_dir)), (returns (copy2 w (log_file w) log_dir)),
      (returns (makedirs w files_dir)), (report_returns w);
      unfold mount_command, unmount_command, create_command;
      cbn [negb app]; repeat (rewrite filter_app || rewrite filter_head);
      no_hdiutil "create"; reflexivity.
  - rewrite app_nil_r.
    rewrite (filter_none _ is_query _ (log_system_info_events w)
               (query_not_hdiutil "create")).
    destruct (run_size w); reflexivity.
Qed.

Ltac split_stages w verb :=
  rewrite main_trace;
  unfold staged_trace, mounted_trace, reaches_copy_stage, setup_ok,
    run_report, run_unmount;
  rewrite create_trace_eq, mount_eq, unmount_eq; cbn [trace fst];
  destruct (preconditions_ok w), (run_size w), (exists_ w (run_bundle w)),
    (create_ok w), (mount_ok w),
    (returns (makedirs w log_dir)), (returns (copy2 w (log_file w) log_dir)),
    (returns (makedirs w files_dir)), (report_returns w);
  unfold mount_command, unmount_command, create_command;
  cbn [negb andb app];
  repeat (rewrite filter_app || rewrite filter_head);
  no_hdiutil verb.

Lemma attach_and_detach_aux (w : World) :
  filter is_attach (trace (main w))
  = (if preconditions_ok w && create_ok w
     then [Popen (mount_command (run_bundle w))]
     else [])
  /\ filter is_unmount (trace (main w))
     = (if reaches_copy_stage w && report_returns w
        then [Popen (unmount_command mount_point)]
        else []).
Proof.
  split.
  - unfold is_attach. split_stages w "attach"; reflexivity.
  - unfold is_unmount. split_stages w "detach"; reflexivity.
Qed.

(** X2: a run attaches the container at most once, exactly when the
    preconditions hold and the creation succeeded; and it detaches it at
    most once, exactly when it reached the copy stage and the report step
    returned.  So a container that was mounted stays mounted when making
    the directories, copying the log or the queries of the report raise. *)
Theorem attach_and_detach (w : World) :
  filter is_attach (trace (main w))
  = (if preconditions_ok w && create_ok w
     then [Popen ["hdiutil"; "attach"; run_bundle w; "-mountpoint"; mount_point]]
     else [])
  /\ filter is_unmount (trace (main w))
     = (if reaches_copy_stage w && report_returns w
        then [Popen ["hdiutil"; "detach"; mount_point; "-force"]]
        else []).
Proof. exact (attach_and_detach_aux w). Qed.

(** X3: the container is left attached: the run mounted it, then the setup
    inside it or the report step raised; [main] exits with status 1
    without a detach. *)
Theorem container_left_mounted (w : World) :
  preconditions_ok w = true ->
  create_ok w = true ->
  mount_ok w = true ->
  setup_ok w = false \/ report_returns w = false ->
  In (Popen (mount_command (run_bundle w))) (trace (main w))
  /\ filter is_unmount (trace (main w)) = []
  /\ result (main w) = Ret 1.
Proof.
  intros Hpre Hcr Hm Hfail.
  destruct (attach_and_detach_aux w) as [Ha Hd].
  repeat split.
  - apply (filter_In is_attach). rewrite Ha, Hpre, Hcr. left. reflexivity.
  - rewrite Hd. unfold reaches_copy_stage.
    destruct Hfail as [-> | ->]; rewrite ?andb_false_r; reflexivity.
  - rewrite main_status. unfold run_ok, reaches_copy_stage.
    destruct Hfail as [-> | ->]; rewrite ?andb_false_r; reflexivity.
Qed.

Lemma container_left_mounted_witness :
  In (Popen (mount_command (run_bundle queries_fail))) (trace (main queries_fail))
  /\ filter is_unmount (trace (main queries_fail)) = []
  /\ result (main queries_fail) = Ret 1.
Proof.
  apply (container_left_mounted queries_fail); try (vm_compute; reflexivity).
  right. vm_compute. reflexivity.
Defined.

(** ** The copy commands of a run *)

Lemma item_copy_commands (w : World) (destination source : string) :
  filter is_copy_command (item_trace w destination source)
  = map Popen (copy_commands_of w destination source).
Proof.
  unfold item_trace, copy_commands_of, copy_with_metadata.
  destruct (isfile w source).
  - destruct (execute_command_eq w (ditto source destination)) as [o ->].
    destruct (command_ok w (ditto source destination)); cbn;
      [destruct (negb _)|]; reflexivity.
  - destruct (isdir w source); [|reflexivity].
    destruct (execute_command_eq w
                (ditto source (join destination (basename source)))) as [o ->].
    destruct (makedirs w (join destination (basename source))) as [[]|e];
      cbn; [destruct (negb _)|]; reflexivity.
Qed.

Lemma copies_copy_commands (w : World) :
  filter is_copy_command (trace (run_copies w))
  = map Popen (flat_map (copy_commands_of w files_dir) (run_selection w)).
Proof.
  rewrite run_copies_eq. cbn [trace fst].
  induction (run_selection w) as [|p ps IH]; [reflexivity|].
  cbn [flat_map]. rewrite filter_app, map_app, IH, item_copy_commands.
  reflexivity.
Qed.

(** X4: the copy commands of a run: none unless the run reaches the copy
    stage; then, in selection order, one per selected regular file (into
    the directory of copied files), one per selected directory whose
    target directory could be made (into that directory), and none for
    any other path. *)
Theorem copy_commands (w : World) :
  filter is_copy_command (trace (main w))
  = if reaches_copy_stage w
    then map Popen (flat_map (copy_commands_of w files_dir) (run_selection w))
    else [].
Proof.
  rewrite main_trace.
  unfold staged_trace, mounted_trace, reaches_copy_stage, setup_ok,
    run_report, run_unmount.
  rewrite create_trace_eq, mount_eq, unmount_eq. cbn [trace fst].
  assert (Hq : filter is_copy_command (trace (log_system_info w)) = []).
  { apply (filter_none _ is_query); [apply log_system_info_events|].
    intros [] ?; reflexivity || discriminate. }
  assert (Hr : filter is_copy_command
                 (trace (create_verification_report w (run_hash_log w) log_dir
                           (run_bundle w))) = []).
  { apply (filter_none _ is_report_event); [apply report_kind|].
    intros [] ?; reflexivity || discriminate. }
  destruct (preconditions_ok w), (run_size w), (exists_ w (run_bundle w)),
    (create_ok w), (mount_ok w),
    (returns (makedirs w log_dir)), (returns (copy2 w (log_file w) log_dir)),
    (returns (makedirs w files_dir)), (report_returns w);
    unfold mount_command, unmount_command, create_command;
    cbn [negb andb app];
    repeat (rewrite filter_app || rewrite filter_head);
    rewrite ?Hq, ?Hr, ?copies_copy_commands; cbn [filter app];
    rewrite ?app_nil_r; reflexivity.
Qed.

(** ** Where a run writes *)

Lemma basename_from_no_slash (p acc : string) :
  starts_with_slash acc = false ->
  starts_with_slash (basename_from acc p) = false.
Proof.
  revert acc. induction p as [|c r IH]; intros acc Hacc; cbn [basename_from].
  - exact Hacc.
  - destruct (Ascii.eqb c "/") eqn:Ec.
    + apply IH. reflexivity.
    + apply IH. destruct acc; cbn; [exact Ec | exact Hacc].
Qed.

(** [os.path.basename] never starts with a slash, so joining it to a
    directory stays below that directory. *)
Lemma under_files_dir (source : string) :
  String.prefix mount_point (join files_dir (basename source)) = true.
Proof.
  unfold join, basename.
  rewrite (basename_from_no_slash source "" eq_refl).
  reflexivity.
Qed.

Lemma confined_under (w : World) (e : event) (t : string) :
  write_target e = Some t ->
  String.prefix mount_point t = true ->
  confined w e = true.
Proof.
  intros Ht Hp. unfold confined. rewrite Ht, Hp. apply orb_true_r.
Qed.

Lemma item_confined (w : World) (source : string) :
  forallb (confined w) (item_trace w files_dir source) = true.
Proof.
  assert (Hf : forall s, confined w (Popen (ditto s files_dir)) = true)
    by (intros s; apply (confined_under w _ files_dir); reflexivity).
  assert (Hd : forall s,
             confined w (Popen (ditto s (join files_dir (basename source))))
             = true)
    by (intros s; eapply confined_under;
        [reflexivity | apply under_files_dir]).
  assert (Hm : confined w (MakeDirs (join files_dir (basename source))) = true)
    by (eapply confined_under; [reflexivity | apply under_files_dir]).
  unfold item_trace, copy_with_metadata.
  destruct (isfile w source).
  - destruct (execute_command_eq w (ditto source files_dir)) as [o ->].
    destruct (command_ok w (ditto source files_dir));
      cbn [bind catch ret emit lift calculate_hash trace fst app forallb];
      [destruct (negb _)|];
      cbn [bind catch ret emit lift trace fst app forallb];
      rewrite ?Hf; reflexivity.
  - destruct (isdir w source); [|reflexivity].
    destruct (execute_command_eq w
                (ditto source (join files_dir (basename source)))) as [o ->].
    destruct (makedirs w (join files_dir (basename source))) as [[]|e];
      cbn [bind catch ret emit lift trace fst app forallb];
      [destruct (negb _)|];
      cbn [bind catch ret emit lift trace fst app forallb];
      rewrite ?Hm, ?Hd; reflexivity.
Qed.

Lemma report_confined (w : World) (hash_log : list hash_entry) (sp : string) :
  forallb (confined w)
    (trace (create_verification_report w hash_log log_dir sp)) = true.
Proof.
  assert (Hp : String.prefix mount_point (plist_path log_dir) = true)
    by reflexivity.
  assert (Ht : String.prefix mount_point (txt_path log_dir) = true)
    by reflexivity.
  assert (H1 : confined w (OpenForWrite (plist_path log_dir)) = true)
    by (eapply confined_under; [reflexivity | exact Hp]).
  assert (H2 : forall c, confined w (WriteFile (plist_path log_dir) c) = true)
    by (intros c; eapply confined_under; [reflexivity | exact Hp]).
  assert (H3 : confined w (OpenForWrite (txt_path log_dir)) = true)
    by (eapply confined_under; [reflexivity | exact Ht]).
  assert (H4 : forall c, confined w (WriteFile (txt_path log_dir) c) = true)
    by (intros c; eapply confined_under; [reflexivity | exact Ht]).
  unfold plist_path, txt_path in H1, H2, H3, H4.
  report_cases w log_dir; cbn [forallb]; rewrite ?H1, ?H2, ?H3, ?H4; reflexivity.
Qed.

Lemma run_confined (w : World) : forallb (confined w) (trace (main w)) = true.
Proof.
  rewrite main_trace.
  unfold staged_trace, mounted_trace, run_report, run_unmount.
  rewrite create_trace_eq, mount_eq, unmount_eq, run_copies_eq. cbn [trace fst].
  assert (Hq : forallb (confined w) (trace (log_system_info w)) = true).
  { apply (forallb_weaken is_query); [|apply log_system_info_events].
    intros []; cbn; congruence. }
  assert (Hi : forallb (confined w)
                 (flat_map (item_trace w files_dir) (run_selection w)) = true)
    by (apply forallb_flat_map; intros p _; apply item_confined).
  assert (Hc : forall s,
             confined w (Popen (create_command (run_bundle w) (run_name w) s))
             = true).
  { intros s. unfold confined, create_command.
    cbn [write_target String.eqb Ascii.eqb Bool.eqb last].
    rewrite String.eqb_refl. reflexivity. }
  assert (Hm : confined w (Popen (mount_command (run_bundle w))) = true)
    by (apply (confined_under w _ mount_point); reflexivity).
  assert (Hu : confined w (Popen (unmount_command mount_point)) = true)
    by (apply (confined_under w _ mount_point); reflexivity).
  assert (H1 : confined w (MakeDirs log_dir) = true)
    by (apply (confined_under w _ log_dir); reflexivity).
  assert (H2 : confined w (Copy2 (log_file w) log_dir) = true)
    by (apply (confined_under w _ log_dir); reflexivity).
  assert (H3 : confined w (MakeDirs files_dir) = true)
    by (apply (confined_under w _ files_dir); reflexivity).
  destruct (preconditions_ok w), (run_size w), (exists_ w (run_bundle w)),
    (create_ok w), (mount_ok w),
    (returns (makedirs w log_dir)), (returns (copy2 w (log_file w) log_dir)),
    (returns (makedirs w files_dir)), (report_returns w);
    cbn [app]; rewrite ?forallb_app; cbn [forallb];
    rewrite ?forallb_app; cbn [forallb];
    rewrite ?Hq, ?Hi, ?Hc, ?Hm, ?Hu, ?H1, ?H2, ?H3, ?report_confined;
    reflexivity.
Qed.

(** X5: the run log aside, which the logging handlers keep under the home
    directory and which is not among the actions of a run, every path that
    [main] and the functions it calls make, write or hand to a command as
    its target is the sparse bundle of the run or starts with the mount
    point: making directories, copying the log, copying the selected
    items, writing the report, and the [hdiutil] commands themselves. *)
Theorem writes_are_confined (w : World) (e : event) (target : string) :
  In e (trace (main w)) ->
  write_target e = Some target ->
  target = run_bundle w \/ String.prefix mount_point target = true.
Proof.
  intros Hin Ht.
  pose proof (run_confined w) as H. rewrite forallb_forall in H.
  specialize (H e Hin). unfold confined in H. rewrite Ht in H.
  apply orb_true_iff in H. destruct H as [H|H]; [left|right; exact H].
  apply String.eqb_eq. exact H.
Qed.

Lemma writes_are_confined_witness :
  "/Volumes/ForensicData/copied_files" = run_bundle clean_world
  \/ String.prefix mount_point "/Volumes/ForensicData/copied_files" = true.
Proof.
  apply (writes_are_confined clean_world
           (Popen (ditto "/evidence/b.txt" files_dir))).
  - vm_compute. do 14 right. left. reflexivity.
  - reflexivity.
Defined.

(** ** Sizing: accuracy *)

(** Rounding to nearest gains at most half a unit of the last place. *)
Lemma round53_near_up (m e : Z) :
  0 < Float.excess m ->
  2 * (Float.mant (Float.round53 m e) * 2 ^ Float.excess m)
  <= 2 * m + 2 ^ Float.excess m.
Proof.
  intros Hs.
  destruct (excess_spec m Hs) as [Hlo Hhi].
  unfold Float.round53.
  destruct (Float.excess m <=? 0) eqn:E; [apply Z.leb_le in E; lia|].
  cbn [Float.mant].
  set (s := Float.excess m) in *.
  assert (HP : 0 < 2 ^ s) by (apply Z.pow_pos_nonneg; lia).
  assert (Hhalf : 2 * 2 ^ (s - 1) = 2 ^ s).
  { rewrite <- Z.pow_succ_r by lia. f_equal. lia. }
  rewrite Z.shiftr_div_pow2, Z.land_ones by lia.
  pose proof (Z.div_mod m (2 ^ s) ltac:(lia)) as Hdm.
  pose proof (Z.mod_pos_bound m (2 ^ s) HP) as Hr.
  set (q := m / 2 ^ s) in *. set (r := m mod 2 ^ s) in *.
  destruct (2 ^ (s - 1) <? r) eqn:Hup; cbn [orb].
  - apply Z.ltb_lt in Hup. nia.
  - destruct (r =? 2 ^ (s - 1)) eqn:Heq; cbn [andb].
    + apply Z.eqb_eq in Heq. destruct (Z.odd q); nia.
    + nia.
Qed.

(** For a total below 2^71 the conversion returns at most every integer
    [n] with [1.1 * total <= n * 1 MiB]. *)
Lemma float_size_mb_ceil (T n : Z) :
  0 <= T < 2 ^ 71 -> 11 * T <= 10485760 * n ->
  exists r, float_size_mb T = Ret r /\ r <= n.
Proof.
  intros [HT0 HT] Hle.
  assert (Hn : 0 <= n) by lia.
  unfold float_size_mb, Float.truediv_mib.
  assert (Hov : Float.overflows (Float.round53 T (-20)) = false).
  { apply round53_no_overflow; try lia.
    destruct (Z_le_gt_dec (Float.excess T) 0); [lia|].
    assert (Float.excess T <= 18) by (apply excess_bound; lia). lia. }
  rewrite Hov. unfold Float.mul, Float.one_point_one.
  cbn [Float.mant Float.expo].
  assert (HM : 2 ^ 52 <= 4953959590107546 < 2 ^ 53) by (cbv; split; congruence).
  destruct (Z_le_gt_dec (Float.excess T) 0) as [Hs|Hs].
  - assert (HT53 : 0 <= T < 2 ^ 53).
    { split; [lia|]. unfold Float.excess in Hs.
      destruct (Z.eq_dec T 0) as [->|]; [reflexivity|].
      apply Z.log2_lt_cancel. rewrite Z.log2_pow2; lia. }
    rewrite (round53_exact T (-20) HT53). cbn [Float.mant Float.expo].
    change (-20 + -52) with (-72).
    set (p := T * 4953959590107546).
    assert (Hp : 0 <= p < 2 ^ 106).
    { subst p. split; [lia|].
      change (2 ^ 106) with (2 ^ 53 * 2 ^ 53).
      change (2 ^ 53) with 9007199254740992 in *. nia. }
    assert (Hov' : Float.overflows (Float.round53 p (-72)) = false).
    { apply round53_no_overflow; try lia.
      destruct (Z_le_gt_dec (Float.excess p) 0); [lia|].
      assert (Float.excess p <= 53) by (apply excess_bound; lia). lia. }
    rewrite Hov'.
    destruct (Z_le_gt_dec (Float.excess p) 0) as [Hs2|Hs2].
    + assert (Hp53 : 0 <= p < 2 ^ 53).
      { split; [lia|]. unfold Float.excess in Hs2.
        destruct (Z.eq_dec p 0) as [->|]; [reflexivity|].
        apply Z.log2_lt_cancel. rewrite Z.log2_pow2; lia. }
      rewrite (round53_exact p (-72) Hp53).
      rewrite (to_int_scaled p 72 ltac:(lia)
               : Float.to_int (Some (Float.mk p (-72))) = _).
      eexists; split; [reflexivity|].
      rewrite Z.div_small; [lia|].
      change (2 ^ 72) with 4722366482869645213696.
      change (2 ^ 53) with 9007199254740992 in *. lia.
    + assert (Hs2hi : Float.excess p <= 53) by (apply excess_bound; lia).
      pose proof (round53_near_up p (-72) ltac:(lia)) as Hnear.
      destruct (round53_mant_ge p (-72) ltac:(lia)) as [_ Hexp].
      destruct (round53_near p (-72) ltac:(lia)) as [_ [Hc52 _]].
      rewrite (round53_shape p), Hexp.
      set (s2 := Float.excess p) in *.
      set (c := Float.mant (Float.round53 p (-72))) in *.
      set (k := 72 - s2).
      replace (-72 + s2) with (- k) by (subst k; lia).
      rewrite (to_int_scaled c k) by (subst k; lia).
      eexists; split; [reflexivity|].
      assert (HQ : 0 < 2 ^ s2 <= 2 ^ 53).
      { split; [apply Z.pow_pos_nonneg; lia|apply Z.pow_le_mono_r; lia]. }
      assert (HK : 0 < 2 ^ k) by (apply Z.pow_pos_nonneg; subst k; lia).
      assert (H72 : 2 ^ k * 2 ^ s2 = 2 ^ 72).
      { rewrite <- Z.pow_add_r by (subst k; lia). f_equal. subst k. lia. }
      apply Z.lt_succ_r. apply Z.div_lt_upper_bound; [exact HK|].
      set (Q := 2 ^ s2) in *. set (K := 2 ^ k) in *.
      apply (Z.mul_lt_mono_pos_r Q); [lia|].
      replace (K * Z.succ n * Q) with (Z.succ n * (K * Q)) by ring.
      rewrite H72. subst p.
      change (2 ^ 72) with 4722366482869645213696.
      change (2 ^ 53) with 9007199254740992 in *. lia.
  - assert (Hs18 : Float.excess T <= 18) by (apply excess_bound; lia).
    pose proof (round53_near_up T (-20) ltac:(lia)) as Hup.
    destruct (round53_near T (-20) ltac:(lia)) as [_ [Ha52 Ha53]].
    destruct (round53_mant_ge T (-20) ltac:(lia)) as [_ Hexp].
    destruct (excess_spec T ltac:(lia)) as [_ HThi].
    rewrite Hexp.
    set (s := Float.excess T) in *.
    set (a := Float.mant (Float.round53 T (-20))) in *.
    set (p := a * 4953959590107546).
    assert (Hp : 2 ^ 104 <= p < 2 ^ 106).
    { subst p. change (2 ^ 104) with (2 ^ 52 * 2 ^ 52).
      change (2 ^ 106) with (2 ^ 53 * 2 ^ 53).
      change (2 ^ 53) with 9007199254740992 in *.
      change (2 ^ 52) with 4503599627370496 in *. nia. }
    assert (Hs2lo : 52 <= Float.excess p).
    { unfold Float.excess.
      assert (104 <= Z.log2 p); [|lia].
      replace 104 with (Z.log2 (2 ^ 104)) by (rewrite Z.log2_pow2; lia).
      apply Z.log2_le_mono. lia. }
    assert (Hs2hi : Float.excess p <= 53) by (apply excess_bound; lia).
    assert (Hov' : Float.overflows (Float.round53 p (-20 + s + -52)) = false)
      by (apply round53_no_overflow; lia).
    rewrite Hov'.
    pose proof (round53_near_up p (-20 + s + -52) ltac:(lia)) as Hup2.
    destruct (round53_mant_ge p (-20 + s + -52) ltac:(lia)) as [_ Hexp2].
    rewrite (round53_shape p), Hexp2.
    set (s2 := Float.excess p) in *.
    set (c := Float.mant (Float.round53 p (-20 + s + -52))) in *.
    set (k := 72 - s - s2).
    replace (-20 + s + -52 + s2) with (- k) by (subst k; lia).
    rewrite (to_int_scaled c k) by (subst k; lia).
    eexists; split; [reflexivity|].
    assert (HP : 0 < 2 ^ s <= 2 ^ 18).
    { split; [apply Z.pow_pos_nonneg; lia|apply Z.pow_le_mono_r; lia]. }
    assert (HQ : 0 < 2 ^ s2 <= 2 ^ 53).
    { split; [apply Z.pow_pos_nonneg; lia|apply Z.pow_le_mono_r; lia]. }
    assert (HK : 0 < 2 ^ k) by (apply Z.pow_pos_nonneg; subst k; lia).
    assert (H72 : 2 ^ k * 2 ^ s2 * 2 ^ s = 2 ^ 72).
    { rewrite <- !Z.pow_add_r by (subst k; lia). f_equal. subst k. lia. }
    apply Z.lt_succ_r. apply Z.div_lt_upper_bound; [exact HK|].
    set (P := 2 ^ s) in *. set (Q := 2 ^ s2) in *. set (K := 2 ^ k) in *.
    apply (Z.mul_lt_mono_pos_r (Q * P)); [nia|].
    replace (K * Z.succ n * (Q * P)) with (Z.succ n * (K * Q * P)) by ring.
    rewrite H72.
    (* c Q P <= (p + Q/2) P, and p P = M a P <= M (T + P/2) *)
    assert (H1 : 2 * (c * (Q * P)) <= (2 * p + Q) * P).
    { replace (2 * (c * (Q * P))) with (2 * (c * Q) * P) by ring.
      apply Z.mul_le_mono_nonneg_r; lia. }
    assert (H2 : 2 * (p * P) <= 4953959590107546 * (2 * T + P)).
    { subst p.
      replace (2 * (a * 4953959590107546 * P))
        with (4953959590107546 * (2 * (a * P))) by ring.
      apply Z.mul_le_mono_nonneg_l; lia. }
    assert (H3 : Q * P <= 2 ^ 53 * P)
      by (apply Z.mul_le_mono_nonneg_r; lia).
    change (2 ^ 72) with 4722366482869645213696.
    change (2 ^ 53) with 9007199254740992 in *.
    change (2 ^ 18) with 262144 in *.
    lia.
Qed.

(** X6: the estimate is accurate to the megabyte: for every selection whose
    measured total (the bytes [estimate_size_needed] adds up) is below
    2^71, the result lies between the floor and the ceiling of 1.1 times
    that total in MiB, or is the minimum of 100. *)
Theorem estimate_within_one_mb (fs : string -> node) (paths : list string) :
  (total_size fs paths < 2 ^ 71)%N ->
  exists size_mb,
    estimate_size_needed fs paths = Ret size_mb
    /\ Z.max 100 (floor_mb (total_size fs paths)) <= size_mb
    /\ size_mb <= Z.max 100 (ceil_mb (total_size fs paths)).
Proof.
  intros Hlt.
  set (T := Z.of_N (total_size fs paths)).
  assert (HT : 0 <= T < 2 ^ 71).
  { subst T. split; [lia|]. change (2 ^ 71) with (Z.of_N (2 ^ 71)%N). lia. }
  assert (Hfloor : 10485760 * floor_mb (total_size fs paths) <= 11 * T)
    by (unfold floor_mb; fold T; apply Z.mul_div_le; lia).
  assert (Hceil : 11 * T <= 10485760 * ceil_mb (total_size fs paths)).
  { unfold ceil_mb. fold T.
    pose proof (Z.div_mod (11 * T + 10485759) 10485760 ltac:(lia)) as Hdm.
    pose proof (Z.mod_pos_bound (11 * T + 10485759) 10485760 ltac:(lia)).
    lia. }
  assert (Hf0 : 0 <= floor_mb (total_size fs paths))
    by (unfold floor_mb; apply Z.div_pos; lia).
  destruct (float_size_mb_floor T _ ltac:(change (2 ^ 72) with (2 * 2 ^ 71); lia)
              Hf0 Hfloor) as [r [Hr Hlo]].
  destruct (float_size_mb_ceil T _ HT Hceil) as [r' [Hr' Hhi]].
  assert (r' = r) by congruence. subst r'.
  unfold estimate_size_needed. fold T. rewrite Hr.
  exists (Z.max r 100). repeat split; lia.
Qed.

Lemma estimate_within_one_mb_witness :
  exists size_mb,
    estimate_size_needed (one_file 1073741825) ["/evidence/disk.img"] = Ret size_mb
    /\ Z.max 100 (floor_mb (total_size (one_file 1073741825) ["/evidence/disk.img"]))
       <= size_mb
    /\ size_mb
       <= Z.max 100 (ceil_mb (total_size (one_file 1073741825) ["/evidence/disk.img"])).
Proof.
  apply (estimate_within_one_mb (one_file 1073741825) ["/evidence/disk.img"]).
  vm_compute. reflexivity.
Defined.

(** X7: small selections get the minimum: up to 95325090 measured bytes (the
    largest total with [1.1 * total <= 100 MiB]) the estimate is exactly
    100. *)
Theorem estimate_minimum (fs : string -> node) (paths : list string) :
  (total_size fs paths <= 95325090)%N ->
  estimate_size_needed fs paths = Ret 100.
Proof.
  intros Hle.
  set (T := Z.of_N (total_size fs paths)).
  assert (HT : 0 <= T <= 95325090) by (subst T; lia).
  destruct (float_size_mb_ceil T 100) as [r [Hr Hhi]].
  - split; [lia|]. change (2 ^ 71) with 2361183241434822606848. lia.
  - lia.
  - unfold estimate_size_needed. fold T. rewrite Hr. f_equal. lia.
Qed.

Lemma estimate_minimum_witness :
  estimate_size_needed (one_file 95325090) ["/evidence/a.bin"] = Ret 100.
Proof.
  apply (estimate_minimum (one_file 95325090) ["/evidence/a.bin"]).
  vm_compute. discriminate.
Defined.

Lemma total_size_cons (fs : string -> node) (p : string) (ps : list string) :
  total_size fs (p :: ps) = (path_size (fs p) + total_size fs ps)%N.
Proof.
  unfold total_size at 1. cbn [fold_left]. rewrite total_size_from. lia.
Qed.

Lemma total_size_permutation (fs : string -> node) (ps qs : list string) :
  Permutation ps qs -> total_size fs ps = total_size fs qs.
Proof.
  induction 1 as [|p ps qs _ IH|p q ps|ps qs rs _ IH1 _ IH2].
  - reflexivity.
  - rewrite !total_size_cons, IH. reflexivity.
  - rewrite !total_size_cons. lia.
  - congruence.
Qed.

(** X8: the estimate does not depend on the order of the selection. *)
Theorem estimate_order_independent (fs : string -> node) (ps qs : list string) :
  Permutation ps qs ->
  estimate_size_needed fs ps = estimate_size_needed fs qs.
Proof.
  intros H. unfold estimate_size_needed.
  rewrite (total_size_permutation fs ps qs H). reflexivity.
Qed.

Lemma estimate_order_independent_witness :
  estimate_size_needed (sample_fs three_files) ["/evidence/a.txt"; "/evidence/b.txt"]
  = estimate_size_needed (sample_fs three_files) ["/evidence/b.txt"; "/evidence/a.txt"].
Proof.
  apply (estimate_order_independent (sample_fs three_files)).
  apply perm_swap.
Defined.

(** ** The selection *)

Lemma until_cancel_spec (answers : list string) :
  exists rest,
    answers = (until_cancel answers ++ rest)%list
    /\ (rest = [] \/ exists r, rest = "" :: r)
    /\ ~ In "" (until_cancel answers).
Proof.
  induction answers as [|a l [rest [Hl [Hr Hn]]]]; cbn [until_cancel].
  - exists []. repeat split; auto.
  - destruct (String.eqb a "") eqn:E.
    + apply String.eqb_eq in E. subst a. exists ("" :: l).
      repeat split; eauto.
    + exists rest. cbn [app]. rewrite <- Hl. repeat split; [exact Hr|].
      intros [H|H]; [|exact (Hn H)].
      subst a. discriminate.
Qed.

(** X10: the selection is the chosen files followed by the folders answered
    before the first cancelled folder dialog: what is answered after a
    cancel is never asked for, and no empty folder path is selected. *)
Theorem selection_shape (w : World) :
  exists folders rest,
    select_files_and_folders w = (chosen_files w ++ folders)%list
    /\ folder_answers w = (folders ++ rest)%list
    /\ (rest = [] \/ exists r, rest = "" :: r)
    /\ ~ In "" folders.
Proof.
  destruct (until_cancel_spec (folder_answers w)) as [rest [H1 [H2 H3]]].
  exists (until_cancel (folder_answers w)), rest.
  repeat split; assumption.
Qed.

(** ** Precondition failures *)



(** X12: [log_system_info] asks its six queries, [whoami], [hostname],
    [sw_vers -productVersion], [sw_vers -buildVersion], [uname -m] and
    [uname -r], in this order, each one exactly when all before it
    answered, so all six when none raises and none after the first that
    raises.  It returns when all six answer or when the first to raise
    raises a subprocess error, which it swallows; any other exception
    escapes. *)
Theorem log_system_info_queries (w : World) :
  trace (log_system_info w) = map CheckOutput (asked w system_queries)
  /\ result (log_system_info w)
     = match first_raise w system_queries with
       | None | Some CalledProcessError => Ret tt
       | Some e => Raise e
       end
  /\ (first_raise w system_queries = None ->
      trace (log_system_info w) = map CheckOutput system_queries).
Proof.
  unfold log_system_info, run_check_output, emit, lift, system_queries.
  cbn [asked first_raise].
  destruct (check_output w ["whoami"]) as [?|[]];
    [|repeat split; try reflexivity; discriminate ..].
  destruct (check_output w ["hostname"]) as [?|[]];
    [|repeat split; try reflexivity; discriminate ..].
  destruct (check_output w ["sw_vers"; "-productVersion"]) as [?|[]];
    [|repeat split; try reflexivity; discriminate ..].
  destruct (check_output w ["sw_vers"; "-buildVersion"]) as [?|[]];
    [|repeat split; try reflexivity; discriminate ..].
  destruct (check_output w ["uname"; "-m"]) as [?|[]];
    [|repeat split; try reflexivity; discriminate ..].
  destruct (check_output w ["uname"; "-r"]) as [?|[]];
    repeat split; try reflexivity; discriminate.
Qed.

Lemma log_system_info_queries_witness :
  trace (log_system_info clean_world) = map CheckOutput system_queries.
Proof.
  apply (proj2 (proj2 (log_system_info_queries clean_world))).
  vm_compute. reflexivity.
Defined.

(** A query that raises a subprocess error ends the queries, not the
    run of [log_system_info]; any other exception escapes. *)
Example log_system_info_stops :
  log_system_info queries_fail = ([CheckOutput ["whoami"]], Ret tt).
Proof. vm_compute. reflexivity. Qed.

(** ** A failed mount *)



(** ** What the copy loop records *)

Lemma item_entries_eq (w : World) (destination source : string) :
  item_entries w destination source
  = if recorded w destination source
    then [entry_for w destination source] else [].
Proof.
  unfold recorded, item_entries, copy_with_metadata, entry_for, copied_path.
  destruct (isfile w source); cbn [andb].
  - destruct (execute_command_eq w (ditto source destination)) as [o ->].
    destruct (command_ok w (ditto source destination)); cbn;
      [destruct (negb _)|]; reflexivity.
  - destruct (isdir w source); [|reflexivity].
    destruct (execute_command_eq w
                (ditto source (join destination (basename source)))) as [o ->].
    destruct (makedirs w (join destination (basename source))) as [[]|e];
      cbn; [destruct (negb _)|]; reflexivity.
Qed.

(** X15: the copy loop only appends to the hash log, and what it appends is
    exactly one record for each regular file of the selection whose copy
    command succeeded, in selection order: nothing for a directory, for
    any other path or for a failed copy.  Its flag is true only if it was
    true before and every item returned success. *)
Theorem copy_loop_records (w : World) (paths : list string) (dir : string)
    (hash_log : list hash_entry) (success : bool) :
  result (copy_loop w paths dir hash_log success)
  = Ret (success && forallb (item_flag w dir) paths,
         (hash_log
          ++ map (entry_for w dir) (filter (recorded w dir) paths))%list).
Proof.
  rewrite copy_loop_eq. cbn [result snd]. do 3 f_equal.
  induction paths as [|p ps IH]; [reflexivity|].
  cbn [flat_map filter]. rewrite IH, item_entries_eq.
  destruct (recorded w dir p); reflexivity.
Qed.

(** X16: a selected directory is copied as a whole into a directory of its own
    name and never hashed: the target directory is made first, the copy
    command runs only if that did not raise, no file is read and the hash
    log is left as it was. *)
Theorem copy_of_directory (w : World) (source destination : string)
    (hash_log : list hash_entry) :
  isdir w source = true ->
  let dest_dir := join destination (basename source) in
  copy_with_metadata w source destination hash_log
  = (MakeDirs dest_dir
     :: (if returns (makedirs w dest_dir)
         then [Popen ["ditto"; "-v"; source; dest_dir]] else []),
     Ret (returns (makedirs w dest_dir)
          && command_ok w ["ditto"; "-v"; source; dest_dir],
          hash_log)).
Proof.
  intros Hd dest_dir.
  assert (Hf : isfile w source = false).
  { unfold isdir in Hd. unfold isfile. destruct (fs w source); congruence. }
  unfold copy_with_metadata. rewrite Hf, Hd. fold dest_dir.
  destruct (execute_command_eq w (ditto source dest_dir)) as [o ->].
  unfold ditto.
  destruct (makedirs w dest_dir) as [[]|e]; cbn;
    [destruct (command_ok w _)|]; reflexivity.
Qed.

Lemma copy_of_directory_witness :
  let dest_dir := join files_dir (basename "/evidence/case7") in
  copy_with_metadata one_folder "/evidence/case7" files_dir []
  = (MakeDirs dest_dir
     :: (if returns (makedirs one_folder dest_dir)
         then [Popen ["ditto"; "-v"; "/evidence/case7"; dest_dir]] else []),
     Ret (returns (makedirs one_folder dest_dir)
          && command_ok one_folder ["ditto"; "-v"; "/evidence/case7"; dest_dir],
          [])).
Proof.
  apply (copy_of_directory one_folder "/evidence/case7" files_dir []).
  vm_compute. reflexivity.
Defined.

(** A run over directories only: everything is copied, nothing is hashed,
    the report has no record, and the run ends with status 0. *)
Example one_folder_run :
  run_selection one_folder = ["/evidence/case7"]
  /\ estimate_size_needed (fs one_folder) (run_selection one_folder) = Ret 100
  /\ run_hash_log one_folder = []
  /\ map (fun a => text_records (snd a)) (written_texts (trace (main one_folder)))
     = [[]]
  /\ result (main one_folder) = Ret 0.
Proof. repeat split; vm_compute; reflexivity. Qed.

(** ** The artifacts of the report step *)

(** X18: the report step writes each artifact at most once, both into the
    output directory and from the same data, and never the text report
    without the structured one. *)
Theorem report_artifacts_shape (w : World) (hash_log : list hash_entry)
    (output_path sp : string) :
  let t := trace (create_verification_report w hash_log output_path sp) in
  let r := report_record w hash_log sp in
  (written_plists t = [] /\ written_texts t = [])
  \/ (written_plists t = [(plist_path output_path, r)]
      /\ (written_texts t = []
          \/ written_texts t = [(txt_path output_path, text_report r hash_log)])).
Proof.
  report_cases w output_path; auto.
Qed.

(** ** The lines of the text report *)

Lemma append_assoc (a b c : string) : ((a ++ b) ++ c = a ++ b ++ c)%string.
Proof.
  induction a as [|x a IH]; cbn; [reflexivity | rewrite IH; reflexivity].
Qed.

Lemma single_line_app (a b : string) :
  single_line a = true -> single_line b = true -> single_line (a ++ b) = true.
Proof.
  intros Ha Hb. induction a as [|x a IH]; cbn in *; [exact Hb|].
  apply andb_prop in Ha. destruct Ha as [Hx Ha]. rewrite Hx, IH; auto.
Qed.

Lemma lines_line (x rest : string) :
  single_line x = true ->
  lines (x ++ String "010"%char rest) = x :: lines rest.
Proof.
  induction x as [|c x IH]; intros Hx; [reflexivity|].
  cbn [single_line] in Hx.
  apply andb_prop in Hx. destruct Hx as [Hc Hx].
  apply andb_prop in Hc. destruct Hc as [Hc _].
  apply negb_true_iff in Hc.
  cbn [append lines]. rewrite Hc, (IH Hx). reflexivity.
Qed.

(** A write of a single line and a line feed ends a line. *)
Lemma lines_literal (x rest : string) :
  single_line x = true ->
  lines ((x ++ nl) ++ rest) = x :: lines rest.
Proof.
  intros Hx. rewrite append_assoc. apply lines_line. exact Hx.
Qed.

(** A second line feed leaves an empty line. *)
Lemma lines_literal_blank (x rest : string) :
  single_line x = true ->
  lines ((x ++ nl ++ nl) ++ rest) = x :: "" :: lines rest.
Proof.
  intros Hx. rewrite append_assoc.
  change ((nl ++ nl) ++ rest)%string
    with (String "010"%char (String "010"%char rest)).
  rewrite lines_line by exact Hx. reflexivity.
Qed.

Lemma lines_field (prefix field rest : string) :
  single_line prefix = true -> single_line field = true ->
  lines ((prefix ++ field ++ nl) ++ rest) = (prefix ++ field) :: lines rest.
Proof.
  intros Hp Hf. rewrite <- (append_assoc prefix field nl).
  apply lines_literal. apply single_line_app; assumption.
Qed.

Lemma lines_field_blank (prefix field rest : string) :
  single_line prefix = true -> single_line field = true ->
  lines ((prefix ++ field ++ nl ++ nl) ++ rest)
  = (prefix ++ field) :: "" :: lines rest.
Proof.
  intros Hp Hf. rewrite <- (append_assoc prefix field (nl ++ nl)).
  apply lines_literal_blank. apply single_line_app; assumption.
Qed.

Lemma entry_text_lines (e : hash_entry) (rest : list string) :
  forallb single_line (entry_strings e) = true ->
  lines (file_text (text_entry e ++ rest))
  = (entry_lines e ++ lines (file_text rest))%list.
Proof.
  unfold entry_strings. cbn [forallb]. intros H.
  apply andb_prop in H. destruct H as [H1 H].
  apply andb_prop in H. destruct H as [H2 H].
  apply andb_prop in H. destruct H as [H3 H].
  apply andb_prop in H. destruct H as [H4 H].
  apply andb_prop in H. destruct H as [H5 _].
  unfold text_entry, entry_lines.
  cbn [app file_text fold_right].
  rewrite (lines_field "Source: ") by (reflexivity || assumption).
  rewrite (lines_field "Destination: ") by (reflexivity || assumption).
  rewrite (lines_field "Source SHA256: ") by (reflexivity || assumption).
  rewrite (lines_field "Destination SHA256: ") by (reflexivity || assumption).
  rewrite (lines_field "Match: ")
    by (reflexivity || (destruct (digest_eqb _ _); reflexivity)).
  rewrite (lines_field_blank "Timestamp: ") by (reflexivity || assumption).
  reflexivity.
Qed.

Lemma entries_text_lines (hash_log : list hash_entry) :
  forallb single_line (flat_map entry_strings hash_log) = true ->
  lines (file_text (flat_map text_entry hash_log))
  = (flat_map entry_lines hash_log ++ [""])%list.
Proof.
  induction hash_log as [|e l IH]; intros H; [reflexivity|].
  cbn [flat_map] in *. rewrite forallb_app in H.
  apply andb_prop in H. destruct H as [He Hl].
  rewrite entry_text_lines by exact He.
  rewrite (IH Hl), <- app_assoc. reflexivity.
Qed.

(** The text report, line by line: the header, then seven lines for each
    record, the last of them empty. *)
Lemma text_report_lines (r : report_data) :
  forallb single_line (report_strings r) = true ->
  lines (file_text (text_report r (file_hashes r)))
  = (header_lines r ++ flat_map entry_lines (file_hashes r) ++ [""])%list.
Proof.
  unfold report_strings. rewrite forallb_app. intros H.
  apply andb_prop in H. destruct H as [Hh He].
  cbn [forallb] in Hh.
  apply andb_prop in Hh. destruct Hh as [H1 Hh].
  apply andb_prop in Hh. destruct Hh as [H2 Hh].
  apply andb_prop in Hh. destruct Hh as [H3 Hh].
  apply andb_prop in Hh. destruct Hh as [H4 Hh].
  apply andb_prop in Hh. destruct Hh as [H5 Hh].
  apply andb_prop in Hh. destruct Hh as [H6 _].
  unfold text_report, text_header, header_lines.
  cbn [app file_text fold_right].
  rewrite lines_literal by reflexivity.
  rewrite lines_literal_blank by reflexivity.
  rewrite (lines_field "Created: ") by (reflexivity || assumption).
  rewrite (lines_field "Sparsebundle: ") by (reflexivity || assumption).
  rewrite (lines_field_blank "Tool Version: ") by (reflexivity || assumption).
  rewrite lines_literal by reflexivity.
  rewrite lines_literal by reflexivity.
  rewrite (lines_field "user: ") by (reflexivity || assumption).
  rewrite (lines_field "hostname: ") by (reflexivity || assumption).
  rewrite (lines_field "macos_version: ") by (reflexivity || assumption).
  change (nl ++ "FILE HASHES" ++ nl)%string
    with (("" ++ nl) ++ "FILE HASHES" ++ nl)%string.
  rewrite (append_assoc ("" ++ nl)), (lines_literal "") by reflexivity.
  rewrite lines_literal by reflexivity.
  rewrite lines_literal by reflexivity.
  fold (file_text (flat_map text_entry (file_hashes r))).
  rewrite (entries_text_lines _ He). reflexivity.
Qed.

Lemma header_has_no_match_line (r : report_data) (b : bool) :
  filter (String.eqb ("Match: " ++ str_bool b)) (header_lines r) = [].
Proof. destruct b; reflexivity. Qed.

Lemma entry_match_line (e : hash_entry) (b : bool) :
  filter (String.eqb ("Match: " ++ str_bool b)) (entry_lines e)
  = if Bool.eqb b (digests_match e) then ["Match: " ++ str_bool b] else [].
Proof.
  unfold entry_lines, digests_match.
  destruct b, (digest_eqb (sha256_source e) (sha256_destination e));
    reflexivity.
Qed.

Lemma match_line_count (r : report_data) (b : bool) :
  forallb single_line (report_strings r) = true ->
  List.length (filter (String.eqb ("Match: " ++ str_bool b))
                 (lines (file_text (text_report r (file_hashes r)))))
  = List.length (filter (fun e => Bool.eqb b (digests_match e)) (file_hashes r)).
Proof.
  intros H. rewrite (text_report_lines r H).
  rewrite filter_app, header_has_no_match_line. cbn [app].
  induction (file_hashes r) as [|e l IH]; [destruct b; reflexivity|].
  cbn [flat_map filter]. rewrite <- app_assoc, filter_app, length_app, IH.
  rewrite entry_match_line.
  destruct (Bool.eqb b (digests_match e)); reflexivity.
Qed.

(** X19: when no string of the report holds a line feed or a carriage
    return, the text report reflects the comparison of every record:
    split at its line feeds, it has as many lines [Match: False] as the
    log has records whose digests differ, and as many lines [Match: True]
    as records whose digests are equal. *)
Theorem text_report_match_lines (r : report_data) :
  forallb single_line (report_strings r) = true ->
  mismatch_lines (text_report r (file_hashes r))
  = List.length (filter (fun e => negb (digests_match e)) (file_hashes r))
  /\ match_lines (text_report r (file_hashes r))
     = List.length (filter digests_match (file_hashes r)).
Proof.
  intros H. split.
  - unfold mismatch_lines.
    change "Match: False" with ("Match: " ++ str_bool false)%string.
    rewrite (match_line_count r false H). reflexivity.
  - unfold match_lines.
    change "Match: True" with ("Match: " ++ str_bool true)%string.
    rewrite (match_line_count r true H).
    f_equal. apply filter_ext. intros e. destruct (digests_match e); reflexivity.
Qed.

Lemma text_report_match_lines_witness :
  let r := report_record one_copy_corrupt (run_hash_log one_copy_corrupt)
             (run_bundle one_copy_corrupt) in
  mismatch_lines (text_report r (file_hashes r))
  = List.length (filter (fun e => negb (digests_match e)) (file_hashes r))
  /\ match_lines (text_report r (file_hashes r))
     = List.length (filter digests_match (file_hashes r)).
Proof.
  intros r. apply (text_report_match_lines r). vm_compute. reflexivity.
Defined.

(** A line feed in a path can forge such a line: the record does not
    match, and the report has a line that says it does. *)
Example forged_match_line :
  match_lines (text_report (report_record clean_world [forged_entry] "/cases/x")
                 [forged_entry]) = 1%nat
  /\ digests_match forged_entry = false
  /\ plist_writable (report_record clean_world [forged_entry] "/cases/x") = true.
Proof. repeat split; vm_compute; reflexivity. Qed.

(** ** Hashing in chunks *)

Section HashingFacts.

Context {hash_obj : Type}.
Variable new : hash_obj.
Variable update : hash_obj -> list Byte.byte -> hash_obj.
Variable hexdigest : hash_obj -> string.

Lemma firstn_chunk_empty (data : list Byte.byte) :
  firstn chunk_size data = [] -> data = [].
Proof. destruct data; [reflexivity|discriminate]. Qed.

Lemma skipn_chunk_shorter (data : list Byte.byte) :
  data <> [] -> (List.length (skipn chunk_size data) < List.length data)%nat.
Proof.
  intros H. rewrite length_skipn.
  destruct data as [|b data]; [congruence|].
  cbn [List.length]. unfold chunk_size. lia.
Qed.

Hypothesis update_empty : forall h, update h [] = h.
Hypothesis update_streams :
  forall h a b, update (update h a) b = update h (a ++ b)%list.

Lemma hash_chunks_whole (reads : nat) :
  forall (h : hash_obj) (data : list Byte.byte),
    (List.length data < reads)%nat ->
    hash_chunks update reads h data = Some (update h data).
Proof.
  induction reads as [|reads IH]; intros h data Hlen; [lia|].
  cbn [hash_chunks].
  destruct (firstn chunk_size data) as [|b chunk] eqn:E.
  - rewrite (firstn_chunk_empty data E), update_empty. reflexivity.
  - assert (Hne : data <> []) by (intros ->; discriminate).
    pose proof (skipn_chunk_shorter data Hne).
    rewrite IH by lia.
    rewrite update_streams, <- E, firstn_skipn. reflexivity.
Qed.

End HashingFacts.

(** X20: for a hash object whose updates stream (feeding [a] and then [b] is
    feeding [a ++ b], and feeding nothing changes nothing), hashing a
    readable file in chunks of 4096 bytes gives the digest of its whole
    content. *)
Theorem chunked_hash_is_whole_hash {hash_obj : Type} (new : hash_obj)
    (update : hash_obj -> list Byte.byte -> hash_obj)
    (hexdigest : hash_obj -> string) (data : list Byte.byte) :
  (forall h, update h [] = h) ->
  (forall h a b, update (update h a) b = update h (a ++ b)%list) ->
  calculate_hash_of new update hexdigest (Ret data)
  = Some (hexdigest (update new data)).
Proof.
  intros H0 Hs. unfold calculate_hash_of.
  rewrite (hash_chunks_whole update H0 Hs); [reflexivity|lia].
Qed.

Lemma chunked_hash_is_whole_hash_witness :
  calculate_hash_of [] (@app Byte.byte) (fun h => str_int (Z.of_nat (List.length h)))
    (Ret (repeat Byte.x2a 4500))
  = Some (str_int (Z.of_nat (List.length ([] ++ repeat Byte.x2a 4500)%list))).
Proof.
  apply (chunked_hash_is_whole_hash [] (@app Byte.byte)
           (fun h => str_int (Z.of_nat (List.length h)))
           (repeat Byte.x2a 4500)).
  - intros h. apply app_nil_r.
  - intros h a b. symmetry. apply app_assoc.
Defined.

Lemma hash_chunks_recorded (reads : nat) :
  forall (seen : list (list Byte.byte)) (data : list Byte.byte),
    (List.length data < reads)%nat ->
    exists chunks,
      hash_chunks record_chunk reads seen data = Some (seen ++ chunks)%list
      /\ List.concat chunks = data
      /\ Forall (fun c => (0 < List.length c <= chunk_size)%nat) chunks.
Proof.
  induction reads as [|reads IH]; intros seen data Hlen; [lia|].
  cbn [hash_chunks].
  destruct (firstn chunk_size data) as [|b chunk] eqn:E.
  - exists []. rewrite (firstn_chunk_empty data E), app_nil_r.
    repeat split. constructor.
  - assert (Hne : data <> []) by (intros ->; discriminate).
    pose proof (skipn_chunk_shorter data Hne).
    destruct (IH (record_chunk seen (b :: chunk)) (skipn chunk_size data)
                ltac:(lia)) as [chunks [Hc [Hcat Hall]]].
    exists ((b :: chunk) :: chunks). rewrite Hc. unfold record_chunk.
    rewrite <- app_assoc. repeat split.
    + cbn [List.concat]. rewrite Hcat, <- E. apply firstn_skipn.
    + constructor; [|exact Hall].
      rewrite <- E. split; [rewrite E; cbn; lia|apply firstn_le_length].
Qed.

(** X21: the loop of [calculate_hash] ends, and it feeds the hash object the
    content of the file, whole and in order, in non-empty chunks of at
    most 4096 bytes: it never holds more than one chunk. *)
Theorem hash_chunks_feed (data : list Byte.byte) :
  exists chunks,
    hash_chunks record_chunk (S (List.length data)) [] data = Some chunks
    /\ List.concat chunks = data
    /\ Forall (fun c => (0 < List.length c <= chunk_size)%nat) chunks.
Proof.
  destruct (hash_chunks_recorded (S (List.length data)) [] data ltac:(lia))
    as [chunks H].
  exists chunks. exact H.
Qed.

(** ** Sizing: more never gives less *)

Lemma round53_pos (m e : Z) :
  0 < Float.excess m ->
  let s := Float.excess m in
  let q := m / 2 ^ s in
  let r := m mod 2 ^ s in
  Float.round53 m e
  = Float.mk (if (2 ^ (s - 1) <? r) || ((r =? 2 ^ (s - 1)) && Z.odd q)
              then q + 1 else q) (e + s).
Proof.
  intros Hs s q r. unfold Float.round53. fold s.
  destruct (s <=? 0) eqn:E; [apply Z.leb_le in E; lia|].
  rewrite Z.shiftr_div_pow2, Z.land_ones by lia. reflexivity.
Qed.

Lemma round53_small (m e : Z) :
  Float.excess m <= 0 -> Float.round53 m e = Float.mk m e.
Proof.
  intros Hs. unfold Float.round53.
  destruct (Float.excess m <=? 0) eqn:E; [reflexivity|].
  apply Z.leb_gt in E. lia.
Qed.

Lemma excess_mono (m m' : Z) :
  m <= m' -> Float.excess m <= Float.excess m'.
Proof.
  intros H. unfold Float.excess.
  pose proof (Z.log2_le_mono m m' H). lia.
Qed.

Lemma rounded_small (m : Z) : Float.excess m <= 0 -> rounded m = m.
Proof.
  intros Hs. unfold rounded. rewrite (round53_small m 0 Hs).
  cbn [Float.mant Float.expo]. cbn. lia.
Qed.

Lemma rounded_pos (m : Z) :
  0 < Float.excess m ->
  rounded m = Float.mant (Float.round53 m 0) * 2 ^ Float.excess m
  /\ 2 ^ 52 <= Float.mant (Float.round53 m 0) <= 2 ^ 53.
Proof.
  intros Hs. unfold rounded.
  destruct (round53_mant_ge m 0 Hs) as [_ ->].
  destruct (round53_near m 0 Hs) as [_ Hb].
  split; [reflexivity|exact Hb].
Qed.

Lemma small_below (m : Z) : Float.excess m <= 0 -> m < 2 ^ 53.
Proof.
  intros Hs. unfold Float.excess in Hs.
  destruct (Z_lt_le_dec 0 m) as [Hm|Hm]; [|lia].
  apply Z.log2_lt_cancel. rewrite Z.log2_pow2; lia.
Qed.

(** Rounding to nearest is monotone. *)
Lemma rounded_mono (m m' : Z) : 0 <= m <= m' -> rounded m <= rounded m'.
Proof.
  intros [H0 Hle].
  pose proof (excess_mono m m' Hle) as Hex.
  destruct (Z_le_gt_dec (Float.excess m') 0) as [Hs'|Hs'].
  - rewrite !rounded_small by lia. exact Hle.
  - destruct (rounded_pos m' ltac:(lia)) as [-> [Ha' _]].
    assert (HP' : 2 * 2 ^ (Float.excess m' - 1) = 2 ^ Float.excess m').
    { rewrite <- Z.pow_succ_r by lia. f_equal. lia. }
    destruct (Z_le_gt_dec (Float.excess m) 0) as [Hs|Hs].
    + rewrite rounded_small by lia.
      pose proof (small_below m Hs).
      assert (2 <= 2 ^ Float.excess m')
        by (change 2 with (2 ^ 1) at 1; apply Z.pow_le_mono_r; lia).
      change (2 ^ 53) with (2 ^ 52 * 2) in *. nia.
    + destruct (rounded_pos m ltac:(lia)) as [-> [_ Ha]].
      destruct (Z.eq_dec (Float.excess m) (Float.excess m')) as [Heq|Hne].
      * (* the same binade *)
        rewrite <- Heq in *.
        apply Z.mul_le_mono_nonneg_r; [apply Z.pow_nonneg; lia|].
        rewrite (round53_pos m 0 ltac:(lia)), (round53_pos m' 0 ltac:(lia)).
        cbv zeta. rewrite <- Heq. cbn [Float.mant].
        set (s := Float.excess m) in *.
        assert (HP : 0 < 2 ^ s) by (apply Z.pow_pos_nonneg; lia).
        pose proof (Z.div_mod m (2 ^ s) ltac:(lia)) as Hdm.
        pose proof (Z.div_mod m' (2 ^ s) ltac:(lia)) as Hdm'.
        pose proof (Z.mod_pos_bound m (2 ^ s) HP) as Hr.
        pose proof (Z.mod_pos_bound m' (2 ^ s) HP) as Hr'.
        pose proof (Z.div_le_mono m m' (2 ^ s) HP Hle) as Hq.
        set (q := m / 2 ^ s) in *. set (r := m mod 2 ^ s) in *.
        set (q' := m' / 2 ^ s) in *. set (r' := m' mod 2 ^ s) in *.
        set (h := 2 ^ (s - 1)) in *.
        destruct (Z.eq_dec q q') as [Hqq|Hqq].
        -- rewrite <- Hqq. assert (Hrr : r <= r') by nia.
           destruct (h <? r) eqn:E1; cbn [orb].
           ++ apply Z.ltb_lt in E1.
              assert (E2 : (h <? r') = true) by (apply Z.ltb_lt; lia).
              rewrite E2. cbn [orb]. lia.
           ++ destruct (r =? h) eqn:E3; cbn [andb].
              ** apply Z.eqb_eq in E3.
                 destruct (Z.odd q) eqn:Eo.
                 --- destruct (h <? r') eqn:E2; cbn [orb]; [lia|].
                     apply Z.ltb_ge in E2.
                     assert (E4 : (r' =? h) = true) by (apply Z.eqb_eq; lia).
                     rewrite E4. cbn [andb]. lia.
                 --- destruct ((h <? r') || ((r' =? h) && false)); lia.
              ** destruct ((h <? r') || ((r' =? h) && Z.odd q)); lia.
        -- destruct ((h <? r) || ((r =? h) && Z.odd q)),
             ((h <? r') || ((r' =? h) && Z.odd q')); lia.
      * (* a lower binade *)
        assert (Hlt : Float.excess m + 1 <= Float.excess m') by lia.
        assert (2 ^ (Float.excess m + 1) <= 2 ^ Float.excess m')
          by (apply Z.pow_le_mono_r; lia).
        rewrite Z.pow_add_r in * by lia.
        assert (0 < 2 ^ Float.excess m) by (apply Z.pow_pos_nonneg; lia).
        change (2 ^ 1) with 2 in *.
        change (2 ^ 53) with (2 ^ 52 * 2) in *. nia.
Qed.

(** Rounding commutes with scaling by a power of two. *)
Lemma rounded_scale (m j : Z) :
  0 <= m -> 0 <= j -> rounded (m * 2 ^ j) = rounded m * 2 ^ j.
Proof.
  intros Hm Hj.
  destruct (Z.eq_dec m 0) as [->|Hm0]; [reflexivity|].
  assert (HJ : 0 < 2 ^ j) by (apply Z.pow_pos_nonneg; lia).
  assert (Hex : Float.excess (m * 2 ^ j) = Float.excess m + j).
  { unfold Float.excess. rewrite Z.log2_mul_pow2 by lia. lia. }
  destruct (Z_le_gt_dec (Float.excess m + j) 0) as [Hu|Hu].
  - rewrite !rounded_small by lia. reflexivity.
  - destruct (rounded_pos (m * 2 ^ j) ltac:(lia)) as [-> _].
    rewrite (round53_pos (m * 2 ^ j) 0 ltac:(lia)). cbv zeta.
    rewrite Hex. cbn [Float.mant].
    destruct (Z_le_gt_dec (Float.excess m) 0) as [Hs|Hs].
    + (* exact before scaling, and still exact after *)
      rewrite (rounded_small m Hs).
      set (u := Float.excess m + j) in *.
      assert (Hsplit : 2 ^ j = 2 ^ (j - u) * 2 ^ u).
      { rewrite <- Z.pow_add_r by lia. f_equal. lia. }
      assert (HU : 0 < 2 ^ u) by (apply Z.pow_pos_nonneg; lia).
      assert (Hh : 0 < 2 ^ (u - 1)) by (apply Z.pow_pos_nonneg; lia).
      rewrite Hsplit, Z.mul_assoc, Z.div_mul, Z.mod_mul by lia.
      replace (2 ^ (u - 1) <? 0) with false by (symmetry; apply Z.ltb_ge; lia).
      replace (0 =? 2 ^ (u - 1)) with false by (symmetry; apply Z.eqb_neq; lia).
      reflexivity.
    + destruct (rounded_pos m ltac:(lia)) as [-> _].
      rewrite (round53_pos m 0 ltac:(lia)). cbv zeta. cbn [Float.mant].
      set (s := Float.excess m) in *.
      assert (HS : 0 < 2 ^ s) by (apply Z.pow_pos_nonneg; lia).
      assert (Hh : 0 < 2 ^ (s - 1)) by (apply Z.pow_pos_nonneg; lia).
      rewrite (Z.pow_add_r 2 s j) by lia.
      rewrite Z.div_mul_cancel_r by lia.
      rewrite Z.mul_mod_distr_r by lia.
      replace (s + j - 1) with ((s - 1) + j) by lia.
      rewrite (Z.pow_add_r 2 (s - 1) j) by lia.
      set (q := m / 2 ^ s). set (r := m mod 2 ^ s). set (h := 2 ^ (s - 1)) in *.
      replace (h * 2 ^ j <? r * 2 ^ j) with (h <? r).
      2:{ destruct (h <? r) eqn:E; symmetry.
          - apply Z.ltb_lt in E. apply Z.ltb_lt. nia.
          - apply Z.ltb_ge in E. apply Z.ltb_ge. nia. }
      replace (r * 2 ^ j =? h * 2 ^ j) with (r =? h).
      2:{ destruct (r =? h) eqn:E; symmetry.
          - apply Z.eqb_eq in E. apply Z.eqb_eq. nia.
          - apply Z.eqb_neq in E. apply Z.eqb_neq. nia. }
      ring.
Qed.

Lemma round53_value (m e : Z) :
  0 <= m ->
  exists a t,
    Float.round53 m e = Float.mk a (e + t)
    /\ 0 <= t /\ t <= Z.max 0 (Float.excess m)
    /\ 0 <= a <= 2 ^ 53
    /\ a * 2 ^ t = rounded m.
Proof.
  intros Hm. destruct (Z_le_gt_dec (Float.excess m) 0) as [Hs|Hs].
  - exists m, 0. rewrite (round53_small m e Hs), (rounded_small m Hs).
    pose proof (small_below m Hs).
    repeat split; try lia. f_equal. lia.
  - destruct (rounded_pos m ltac:(lia)) as [Hr Hb].
    destruct (round53_mant_ge m e ltac:(lia)) as [_ He].
    exists (Float.mant (Float.round53 m 0)), (Float.excess m).
    repeat split; try lia.
    rewrite (round53_shape m e), He. f_equal.
    rewrite (round53_pos m e ltac:(lia)), (round53_pos m 0 ltac:(lia)).
    reflexivity.
Qed.

Lemma to_int_value (c e : Z) :
  -72 <= e ->
  Float.to_int (Some (Float.mk c e)) = Ret (c * 2 ^ (e + 72) / 2 ^ 72).
Proof.
  intros He. cbn [Float.to_int Float.mant Float.expo]. f_equal.
  destruct (0 <=? e) eqn:E.
  - apply Z.leb_le in E. rewrite Z.pow_add_r by lia.
    rewrite Z.mul_assoc, Z.div_mul; [reflexivity|].
    apply Z.pow_nonzero; lia.
  - apply Z.leb_gt in E. rewrite Z.shiftr_div_pow2 by lia.
    replace (2 ^ 72) with (2 ^ (- e) * 2 ^ (e + 72))
      by (rewrite <- Z.pow_add_r by lia; f_equal; lia).
    rewrite Z.div_mul_cancel_r; [reflexivity| |];
      apply Z.pow_nonzero; lia.
Qed.

(** The conversion in closed form: two roundings and a truncation. *)
Lemma float_size_mb_value (T : Z) :
  0 <= T < 2 ^ 900 ->
  float_size_mb T = Ret (rounded (rounded T * 4953959590107546) / 2 ^ 72).
Proof.
  intros [HT0 HT].
  assert (Hex : Float.excess T <= 847).
  { unfold Float.excess.
    destruct (Z.eq_dec T 0) as [->|]; [cbn; lia|].
    assert (Z.log2 T < 900) by (apply Z.log2_lt_pow2; lia). lia. }
  unfold float_size_mb, Float.truediv_mib.
  rewrite (round53_no_overflow T (-20)) by lia.
  destruct (round53_value T (-20) HT0) as [a [t [Hx [Ht0 [Ht [Ha Hv]]]]]].
  rewrite Hx. unfold Float.mul, Float.one_point_one.
  cbn [Float.mant Float.expo].
  set (p := a * 4953959590107546).
  assert (Hp : 0 <= p < 2 ^ 106).
  { subst p. change (2 ^ 106) with (2 ^ 53 * 2 ^ 53).
    change (2 ^ 53) with 9007199254740992 in *. nia. }
  assert (Hexp : Float.excess p <= 53).
  { destruct (Z_le_gt_dec (Float.excess p) 0); [lia|].
    apply excess_bound; lia. }
  rewrite (round53_no_overflow p (-20 + t + -52)) by lia.
  destruct (round53_value p (-20 + t + -52) ltac:(lia))
    as [c [u [Hy [Hu0 [Hu [Hc Hw]]]]]].
  rewrite Hy, to_int_value by lia. do 2 f_equal.
  replace (-20 + t + -52 + u + 72) with (u + t) by lia.
  rewrite Z.pow_add_r, Z.mul_assoc, Hw by lia.
  rewrite <- rounded_scale by lia.
  f_equal. subst p. rewrite <- Hv. ring.
Qed.

Lemma rounded_nonneg (m : Z) : 0 <= m -> 0 <= rounded m.
Proof.
  intros Hm. destruct (round53_value m 0 Hm) as [a [t [_ [Ht [_ [Ha <-]]]]]].
  apply Z.mul_nonneg_nonneg; [lia|apply Z.pow_nonneg; lia].
Qed.

Lemma float_size_mb_mono (T T' : Z) :
  0 <= T <= T' -> T' < 2 ^ 900 ->
  exists r r',
    float_size_mb T = Ret r /\ float_size_mb T' = Ret r' /\ r <= r'.
Proof.
  intros [H0 Hle] Hlt.
  rewrite !float_size_mb_value by lia.
  do 2 eexists. split; [reflexivity|]. split; [reflexivity|].
  apply Z.div_le_mono; [reflexivity|].
  apply rounded_mono. split.
  - apply Z.mul_nonneg_nonneg; [apply rounded_nonneg|]; lia.
  - apply Z.mul_le_mono_nonneg_r; [lia|]. apply rounded_mono. lia.
Qed.

Lemma total_size_app (fs : string -> node) (ps qs : list string) :
  total_size fs (ps ++ qs) = (total_size fs ps + total_size fs qs)%N.
Proof.
  unfold total_size at 1. rewrite fold_left_app, total_size_from.
  fold (total_size fs ps). lia.
Qed.

(** X9: selecting more never gives a smaller container: the estimate of a
    selection is at most the estimate of the selection with further paths
    added (for totals below 2^900 bytes, where the arithmetic does not
    overflow). *)
Theorem estimate_monotone (fs : string -> node) (ps qs : list string) :
  (total_size fs (ps ++ qs) < 2 ^ 900)%N ->
  exists a b,
    estimate_size_needed fs ps = Ret a
    /\ estimate_size_needed fs (ps ++ qs) = Ret b
    /\ a <= b.
Proof.
  intros Hlt. rewrite total_size_app in Hlt.
  destruct (float_size_mb_mono (Z.of_N (total_size fs ps))
              (Z.of_N (total_size fs (ps ++ qs)))) as [r [r' [Hr [Hr' Hle]]]].
  - rewrite total_size_app. lia.
  - rewrite total_size_app.
    replace (2 ^ 900) with (Z.of_N (2 ^ 900)%N) by (rewrite N2Z.inj_pow; reflexivity).
    lia.
  - unfold estimate_size_needed. rewrite Hr, Hr'.
    exists (Z.max r 100), (Z.max r' 100). repeat split; lia.
Qed.

Lemma estimate_monotone_witness :
  exists a b,
    estimate_size_needed (one_file 104857601) ["/evidence/a.bin"] = Ret a
    /\ estimate_size_needed (one_file 104857601)
         (["/evidence/a.bin"] ++ ["/evidence/b.bin"]) = Ret b
    /\ a <= b.
Proof.
  apply (estimate_monotone (one_file 104857601) ["/evidence/a.bin"]
           ["/evidence/b.bin"]).
  vm_compute. reflexivity.
Defined.

(** ** An existing bundle, and a successful run *)

(** X14: a run never overwrites or mounts what already exists at the derived
    path: when the preconditions hold and something is there, the run
    issues no command at all and ends with status 1. *)
Theorem existing_bundle_untouched (w : World) :
  preconditions_ok w = true ->
  exists_ w (run_bundle w) = true ->
  main w = (trace (log_system_info w), Ret 1).
Proof.
  intros Hpre Hex.
  assert (Hcr : create_ok w = false).
  { rewrite create_ok_eq, Hex. destruct (run_size w); reflexivity. }
  rewrite (pair_eta (main w)). f_equal.
  - rewrite main_trace. unfold staged_trace.
    rewrite Hpre, Hcr, create_trace_eq, Hex.
    destruct (run_size w); cbn [app]; apply app_nil_r.
  - rewrite main_status. unfold run_ok, reaches_copy_stage.
    rewrite Hcr, !andb_false_r. reflexivity.
Qed.

Lemma existing_bundle_untouched_witness :
  main bundle_exists = (trace (log_system_info bundle_exists), Ret 1).
Proof.
  apply (existing_bundle_untouched bundle_exists); vm_compute; reflexivity.
Defined.

Lemma run_hash_log_eq (w : World) :
  run_hash_log w
  = map (entry_for w files_dir) (filter (recorded w files_dir) (run_selection w)).
Proof.
  unfold run_hash_log.
  induction (run_selection w) as [|p ps IH]; [reflexivity|].
  cbn [flat_map filter]. rewrite IH, item_entries_eq.
  destruct (recorded w files_dir p); reflexivity.
Qed.

(** X17: a run that ends with status 0 has, for every selected regular file,
    the record of its copy in the hash log, and the two digests of that
    record are equal. *)
Theorem success_records_every_file (w : World) (source : string) :
  result (main w) = Ret 0 ->
  In source (run_selection w) ->
  isfile w source = true ->
  In (entry_for w files_dir source) (run_hash_log w)
  /\ digests_match (entry_for w files_dir source) = true.
Proof.
  intros H0 Hin Hf.
  rewrite main_status in H0.
  destruct (run_ok w) eqn:Hok; [|discriminate].
  unfold run_ok in Hok. rewrite !andb_true_iff in Hok.
  destruct Hok as [[[_ Hc] _] _].
  unfold copies_ok in Hc. rewrite forallb_forall in Hc.
  specialize (Hc source Hin).
  destruct (item_of_file w files_dir source Hf) as [_ [_ Hflag]].
  rewrite Hflag in Hc. apply andb_true_iff in Hc. destruct Hc as [Hcmd Hm].
  split; [|exact Hm].
  rewrite run_hash_log_eq. apply in_map. apply filter_In.
  split; [exact Hin|]. unfold recorded. rewrite Hf, Hcmd. reflexivity.
Qed.

Lemma success_records_every_file_witness :
  In (entry_for clean_world files_dir "/evidence/c.txt") (run_hash_log clean_world)
  /\ digests_match (entry_for clean_world files_dir "/evidence/c.txt") = true.
Proof.
  apply (success_records_every_file clean_world "/evidence/c.txt").
  - vm_compute. reflexivity.
  - do 2 right. left. reflexivity.
  - vm_compute. reflexivity.
Defined.

(** X22: a selected regular file is hashed only after its copy command
    succeeded: first the source, then the copy (at the destination joined
    with the name of the source when the destination is a directory).  The
    record is appended whether or not the digests agree, and the item is a
    success exactly when the command succeeded and the digests compare
    equal; a failed command reads nothing and records nothing. *)
Theorem copy_of_file (w : World) (source destination : string)
    (hash_log : list hash_entry) :
  isfile w source = true ->
  let copied := command_ok w ["ditto"; "-v"; source; destination] in
  let entry := entry_for w destination source in
  copy_with_metadata w source destination hash_log
  = (Popen ["ditto"; "-v"; source; destination]
     :: (if copied
         then [ReadFile source;
               ReadFile (if isdir w destination
                         then join destination (basename source)
                         else destination)]
         else []),
     Ret (copied && digest_eqb (sha256_source entry) (sha256_destination entry),
          (hash_log ++ (if copied then [entry] else []))%list)).
Proof.
  intros Hf copied entry.
  destruct (item_of_file w destination source Hf) as [Ht [He Hflag]].
  rewrite copy_with_metadata_eq, Ht, He, Hflag. reflexivity.
Qed.

Lemma copy_of_file_witness :
  copy_with_metadata one_copy_corrupt "/evidence/b.txt" files_dir []
  = ([Popen ["ditto"; "-v"; "/evidence/b.txt"; files_dir];
      ReadFile "/evidence/b.txt";
      ReadFile "/Volumes/ForensicData/copied_files/b.txt"],
     Ret (false, [entry_for one_copy_corrupt files_dir "/evidence/b.txt"])).
Proof.
  apply (copy_of_file one_copy_corrupt "/evidence/b.txt" files_dir []).
  vm_compute. reflexivity.
Defined.
